(** * Compartmental epidemic models: SIR with demography, SEIR, seasonal SEIR

    A shallow embedding of the three model classes
    ([SIRWithDemography], [SEIRModel], [SEIRModelWithSeasonality]) and of
    the properties their derivative functions, constructors and [simulate]
    methods satisfy.

    Numbers.  Python floats are modelled as the real numbers of the
    Standard Library: arithmetic is exact, [np.cos] is [cos] and [np.pi]
    is [PI].  Rounding, infinities and NaN are outside this model.  The
    module [Binary64] repeats the two derivative functions that call no
    library function with binary64 arithmetic, to show where a statement
    that holds exactly over the reals holds only up to rounding in the
    code.

    Objects.  A Python instance is its attribute dictionary, a finite map
    from attribute names to values.  Reading an attribute that was never
    assigned raises [AttributeError].

    Exceptions.  A computation that may raise returns a [result]; an
    exception is identified by the name of its class. *)

From Stdlib Require Import Reals Ranalysis5 Lra Lia List.
From Stdlib Require Floats.
From Stdlib Require Import FunctionalExtensionality ClassicalEpsilon.
From stdpp Require Import base strings gmap.
Import ListNotations.

Set Warnings "-inexact-float".

Local Open Scope R_scope.
Local Open Scope string_scope.

(** ** Exceptions, values and instances *)

Module Py.

(** An exception, by the name of its class. *)
Inductive exn : Type :=
| Raise (cls : string).

Inductive result (A : Type) : Type :=
| Ok (a : A)
| Err (e : exn).
#[global] Arguments Ok {A} a.
#[global] Arguments Err {A} e.

#[global] Instance result_ret : MRet result := fun A a => Ok a.

#[global] Instance result_bind : MBind result := fun A B k m =>
  match m with
  | Ok a => k a
  | Err e => Err e
  end.

Definition AttributeError : exn := Raise "AttributeError".
Definition ValueError : exn := Raise "ValueError".
Definition TypeError : exn := Raise "TypeError".
Definition IndexError : exn := Raise "IndexError".

(** Values held by the attributes of the model classes: a float, a list
    of floats, or a two-dimensional array given by its number of columns
    and its rows. *)
Inductive value : Type :=
| VFloat (x : R)
| VList (l : list R)
| VArray (ncols : nat) (rows : list (list R)).

(** [self.name] *)
Definition getattr (self : gmap string value) (name : string) : result value :=
  match self !! name with
  | Some v => Ok v
  | None => Err AttributeError
  end.

(** [self.name = v] *)
Definition setattr (self : gmap string value) (name : string) (v : value)
  : gmap string value :=
  <[name := v]> self.

(** A float operand of an arithmetic expression.  Arithmetic on other
    operands is not modelled: [TypeError] stands for it, although Python
    would first read the remaining attributes of the expression and numpy
    would broadcast an array.  The properties below concern instances
    whose rate constants are floats or are missing. *)
Definition as_float (v : value) : result R :=
  match v with
  | VFloat x => Ok x
  | _ => Err TypeError
  end.

(** [self.name] used as a number. *)
Definition attr (self : gmap string value) (name : string) : result R :=
  v ← getattr self name; as_float v.

(** The one-dimensional initial state [odeint] accepts. *)
Definition as_vector (v : value) : result (list R) :=
  match v with
  | VList l => Ok l
  | VFloat x => Ok [x]
  | VArray _ _ => Err ValueError
  end.

(** [a.T] of a two-dimensional array: the list of its columns.  Floats
    and lists have no attribute [T]. *)
Definition T (v : value) : result (list (list R)) :=
  match v with
  | VArray ncols rows =>
      Ok (map (fun j => map (fun row => nth j row 0) rows) (seq 0 ncols))
  | _ => Err AttributeError
  end.

(** [a, b, c = y], followed by the statements [k] that use the three
    names; any other length of [y] is a [ValueError]. *)
Definition unpack3 {A B : Type} (y : list A) (k : A -> A -> A -> result B)
  : result B :=
  match y with
  | [a; b; c] => k a b c
  | _ => Err ValueError
  end.

(** [a, b, c, d = y] *)
Definition unpack4 {A B : Type} (y : list A)
    (k : A -> A -> A -> A -> result B) : result B :=
  match y with
  | [a; b; c; d] => k a b c d
  | _ => Err ValueError
  end.

(** [l[i]] for a non-negative [i] *)
Definition index {A : Type} (l : list A) (i : nat) : result A :=
  match l !! i with
  | Some a => Ok a
  | None => Err IndexError
  end.

(** [l[::step]] for a positive [step]: the first element, then every
    [step]-th one; [skip] counts the elements still to pass over. *)
Fixpoint every_from {A : Type} (step skip : nat) (l : list A) : list A :=
  match l with
  | [] => []
  | a :: l' =>
      match skip with
      | O => a :: every_from step (step - 1) l'
      | S skip' => every_from step skip' l'
      end
  end.

Definition every {A : Type} (step : nat) (l : list A) : list A :=
  every_from step 0 l.

End Py.
Export Py.

(** ** The libraries the classes call *)

(** [scipy.integrate.odeint(func, y0, t)] integrates [dy/dt = func(y, t)]
    from [y(t[0]) = y0] with LSODA and returns one row per entry of [t].
    [istate] is the return code of the last LSODA call: 2 when the
    integration succeeded, negative when the solver gave up (excess work,
    too much accuracy requested, repeated error test or convergence
    failures).  In that case [odeint] emits a warning and still returns the
    array.  Called without [full_output], as the classes do, it hands the
    caller [rows] alone.  An exception raised by [func] passes through. *)
Record odeint_output : Type := {
  rows : list (list R);
  istate : Z
}.

Definition odeint_t : Type :=
  (list R -> R -> result (list R)) -> list R -> list R -> result odeint_output.

(** The calls issued to [matplotlib.pyplot], in order. *)
Inductive plt_call : Type :=
| plt_figure (width height : R)
| plt_plot (x y : list R) (label : option string)
| plt_xlabel (s : string)
| plt_ylabel (s : string)
| plt_title (s : string)
| plt_legend
| plt_show.

(** [plt.plot(x, y, label=...)]: the call is issued when [x] and [y] have
    the same length; otherwise matplotlib raises [ValueError] (x and y must
    have same first dimension). *)
Definition plot (x y : list R) (label : option string) : result plt_call :=
  if Nat.eqb (length x) (length y) then Ok (plt_plot x y label)
  else Err ValueError.

(** [np.abs] of a complex number given by its real and imaginary parts *)
Definition np_abs (z : R * R) : R := sqrt (fst z * fst z + snd z * snd z).

(** [scipy.fft.fft] and [scipy.fft.fftfreq] are parameters of the model;
    either may raise (fft on an empty sequence, fftfreq on a zero sample
    spacing). *)
Definition fft_t : Type := list R -> result (list (R * R)).
Definition fftfreq_t : Type := nat -> R -> result (list R).

(** ** SIRwDemoClass.py *)

Module SIRWithDemography.

Definition __init__ (self : gmap string value)
    (beta gamma mu : R) (initial_conditions : list R) : gmap string value :=
  let self := setattr self "beta" (VFloat beta) in
  let self := setattr self "gamma" (VFloat gamma) in
  let self := setattr self "mu" (VFloat mu) in
  let self := setattr self "initial_conditions" (VList initial_conditions) in
  self.

(** [SIRWithDemography(beta, gamma, mu, initial_conditions)]: a new
    instance without attributes is handed to [__init__]; no statement of
    [__init__] can raise. *)
Definition new (beta gamma mu : R) (initial_conditions : list R)
  : result (gmap string value) :=
  Ok (__init__ ∅ beta gamma mu initial_conditions).

Definition sir_demography_equations (self : gmap string value)
    (y : list R) (t : R) : result (list R) :=
  unpack3 y (fun S I R_ =>
  dSdt ← (mu ← attr self "mu"; beta ← attr self "beta";
          mret (mu - beta * S * I - mu * S));
  dIdt ← (beta ← attr self "beta"; gamma ← attr self "gamma";
          mu ← attr self "mu";
          mret (beta * S * I - gamma * I - mu * I));
  dRdt ← (gamma ← attr self "gamma"; mu ← attr self "mu";
          mret (gamma * I - mu * R_));
  mret [dSdt; dIdt; dRdt]).

Section Methods.
Variable odeint : odeint_t.

(** [self.results = odeint(self.sir_demography_equations,
    self.initial_conditions, t)].  The instance returned is [self]
    after the assignment; when the call raises, [self] is as before. *)
Definition simulate (self : gmap string value) (t : list R)
  : result (gmap string value) :=
  y0 ← (v ← getattr self "initial_conditions"; as_vector v);
  out ← odeint (sir_demography_equations self) y0 t;
  mret (setattr self "results" (VArray (length y0) (rows out))).

Definition plot_results (self : gmap string value) (t : list R)
  : result (list plt_call) :=
  cols ← (results ← getattr self "results"; T results);
  unpack3 cols (fun S I R_ =>
  pS ← plot t S (Some "Susceptible");
  pI ← plot t I (Some "Infected");
  pR ← plot t R_ (Some "Recovered");
  mret [plt_figure 10 6; pS; pI; pR;
        plt_xlabel "Time";
        plt_ylabel "Proportion of Population";
        plt_title "SIR Model with Demography";
        plt_legend;
        plt_show]).

Definition plot_phase_portrait (self : gmap string value)
  : result (list plt_call) :=
  cols ← (results ← getattr self "results"; T results);
  unpack3 cols (fun S I _ =>
  p ← plot S I (Some "Phase Portrait");
  mret [plt_figure 10 6; p;
        plt_xlabel "Susceptible";
        plt_ylabel "Infected";
        plt_title "Phase Portrait of SIR Model with Demography";
        plt_legend;
        plt_show]).
End Methods.

End SIRWithDemography.

(** ** SEIRClass.py *)

Module SEIRModel.

Definition __init__ (self : gmap string value)
    (beta gamma sigma : R) (initial_conditions : list R) : gmap string value :=
  let self := setattr self "beta" (VFloat beta) in
  let self := setattr self "gamma" (VFloat gamma) in
  let self := setattr self "sigma" (VFloat sigma) in
  let self := setattr self "initial_conditions" (VList initial_conditions) in
  self.

Definition new (beta gamma sigma : R) (initial_conditions : list R)
  : result (gmap string value) :=
  Ok (__init__ ∅ beta gamma sigma initial_conditions).

Definition seir_equations (self : gmap string value)
    (y : list R) (t : R) : result (list R) :=
  unpack4 y (fun S E I R_ =>
  dSdt ← (beta ← attr self "beta"; mret (- beta * S * I));
  dEdt ← (beta ← attr self "beta"; sigma ← attr self "sigma";
          mret (beta * S * I - sigma * E));
  dIdt ← (sigma ← attr self "sigma"; gamma ← attr self "gamma";
          mret (sigma * E - gamma * I));
  dRdt ← (gamma ← attr self "gamma"; mret (gamma * I));
  mret [dSdt; dEdt; dIdt; dRdt]).

Section Methods.
Variable odeint : odeint_t.
Variable fft : fft_t.
Variable fftfreq : fftfreq_t.

Definition simulate (self : gmap string value) (t : list R)
  : result (gmap string value) :=
  y0 ← (v ← getattr self "initial_conditions"; as_vector v);
  out ← odeint (seir_equations self) y0 t;
  mret (setattr self "results" (VArray (length y0) (rows out))).

Definition plot_results (self : gmap string value) (t : list R)
  : result (list plt_call) :=
  cols ← (results ← getattr self "results"; T results);
  unpack4 cols (fun S E I R_ =>
  pS ← plot t S (Some "Susceptible");
  pE ← plot t E (Some "Exposed");
  pI ← plot t I (Some "Infected");
  pR ← plot t R_ (Some "Recovered");
  mret [plt_figure 10 6; pS; pE; pI; pR;
        plt_xlabel "Time";
        plt_ylabel "Proportion of Population";
        plt_title "SEIR Model";
        plt_legend;
        plt_show]).

(** [S, I, _ = self.results.T[::10]] *)
Definition plot_phase_portrait (self : gmap string value)
  : result (list plt_call) :=
  cols ← (results ← getattr self "results"; T results);
  unpack3 (every 10 cols) (fun S I _ =>
  p ← plot S I (Some "Phase Portrait");
  mret [plt_figure 10 6; p;
        plt_xlabel "Susceptible";
        plt_ylabel "Infected";
        plt_title "Phase Portrait of SEIR Model";
        plt_legend;
        plt_show]).

(** The statements run in the order of the source: the infected column
    is taken, [fft] is called on it, and only then are [t[1]] and [t[0]]
    read for [fftfreq]. *)
Definition plot_fourier_transform (self : gmap string value) (t : list R)
  : result (list plt_call) :=
  I ← (cols ← (results ← getattr self "results"; T results);
       index cols 2);
  let N := length t in
  yf ← fft I;
  xf ← (t1 ← index t 1; t0 ← index t 0;
        freq ← fftfreq N (t1 - t0);
        mret (take (N / 2) freq));
  p ← plot xf (map (fun z => 2.0 / INR N * np_abs z) (take (N / 2) yf)) None;
  mret [plt_figure 10 6; p;
        plt_xlabel "Frequency";
        plt_ylabel "Amplitude";
        plt_title "Fourier Transform of Infected Population in SEIR Model";
        plt_show].
End Methods.

End SEIRModel.

(** ** SEIRSeasonalityClass.py *)

Module SEIRModelWithSeasonality.

(** [super().__init__(beta0, gamma, sigma, initial_conditions)], then
    [self.beta1 = beta1]. *)
Definition __init__ (self : gmap string value)
    (beta0 beta1 gamma sigma : R) (initial_conditions : list R)
  : gmap string value :=
  let self := SEIRModel.__init__ self beta0 gamma sigma initial_conditions in
  let self := setattr self "beta1" (VFloat beta1) in
  self.

Definition new (beta0 beta1 gamma sigma : R) (initial_conditions : list R)
  : result (gmap string value) :=
  Ok (__init__ ∅ beta0 beta1 gamma sigma initial_conditions).

Definition seir_seasonal_equations (self : gmap string value)
    (y : list R) (t : R) : result (list R) :=
  unpack4 y (fun S E I R_ =>
  beta_t ← (beta ← attr self "beta"; beta1 ← attr self "beta1";
            mret (beta * (1 + beta1 * cos (2 * PI * t / 365))));
  dSdt ← mret (- beta_t * S * I);
  dEdt ← (sigma ← attr self "sigma"; mret (beta_t * S * I - sigma * E));
  dIdt ← (sigma ← attr self "sigma"; gamma ← attr self "gamma";
          mret (sigma * E - gamma * I));
  dRdt ← (gamma ← attr self "gamma"; mret (gamma * I));
  mret [dSdt; dEdt; dIdt; dRdt]).

(** Inherited from [SEIRModel] and not overridden. *)
Definition seir_equations := SEIRModel.seir_equations.
Definition plot_phase_portrait := SEIRModel.plot_phase_portrait.
Definition plot_fourier_transform := SEIRModel.plot_fourier_transform.

Section Methods.
Variable odeint : odeint_t.

Definition simulate (self : gmap string value) (t : list R)
  : result (gmap string value) :=
  y0 ← (v ← getattr self "initial_conditions"; as_vector v);
  out ← odeint (seir_seasonal_equations self) y0 t;
  mret (setattr self "results" (VArray (length y0) (rows out))).

Definition plot_results (self : gmap string value) (t : list R)
  : result (list plt_call) :=
  cols ← (results ← getattr self "results"; T results);
  unpack4 cols (fun S E I R_ =>
  pS ← plot t S (Some "Susceptible");
  pE ← plot t E (Some "Exposed");
  pI ← plot t I (Some "Infected");
  pR ← plot t R_ (Some "Recovered");
  mret [plt_figure 10 6; pS; pE; pI; pR;
        plt_xlabel "Time";
        plt_ylabel "Proportion of Population";
        plt_title "SEIR Model with Seasonality";
        plt_legend;
        plt_show]).
End Methods.

End SEIRModelWithSeasonality.

(** ** The derivative functions in binary64 *)

(** Python floats are IEEE 754 binary64 numbers, and every arithmetic
    operation rounds to nearest, ties to even; the primitive floats compute
    the same way.  The two derivative functions that call no library
    function are repeated here with that arithmetic, the rate constants
    given as arguments in place of the attribute reads. *)
Module Binary64.

Import Floats.
Local Open Scope float_scope.

Definition sir_demography_equations (beta gamma mu : float) (y : list float)
  : result (list float) :=
  unpack3 y (fun S I R_ =>
  let dSdt := mu - beta * S * I - mu * S in
  let dIdt := beta * S * I - gamma * I - mu * I in
  let dRdt := gamma * I - mu * R_ in
  mret [dSdt; dIdt; dRdt]).

Definition seir_equations (beta gamma sigma : float) (y : list float)
  : result (list float) :=
  unpack4 y (fun S E I R_ =>
  let dSdt := - beta * S * I in
  let dEdt := beta * S * I - sigma * E in
  let dIdt := sigma * E - gamma * I in
  let dRdt := gamma * I in
  mret [dSdt; dEdt; dIdt; dRdt]).


End Binary64.

(** * Definitions used to state the properties *)

(** The exception classes of the error taxonomy.  No class of the
    repository defines or raises them; they are named here to state what
    the constructors and [simulate] do not do. *)
Definition InvalidParameterError : exn := Raise "InvalidParameterError".
Definition InvalidInitialConditionError : exn :=
  Raise "InvalidInitialConditionError".
Definition IntegrationError : exn := Raise "IntegrationError".

(** [S + I + R] or [S + E + I + R]: the sum of the compartments. *)
Definition total (y : list R) : R := fold_right Rplus 0 y.

(** The instances of the example scripts; [seir_model] is the seasonal
    example without its amplitude. *)
Definition sir_demo_model : gmap string value :=
  SIRWithDemography.__init__ ∅ 0.3 0.1 0.01 [0.99; 0.01; 0].

Definition seir_model : gmap string value :=
  SEIRModel.__init__ ∅ 0.3 0.1 0.2 [0.99; 0.0; 0.01; 0].

Definition seir_seasonal_model : gmap string value :=
  SEIRModelWithSeasonality.__init__ ∅ 0.3 0.2 0.1 0.2 [0.99; 0.0; 0.01; 0].

(** The disease-free state [1; 0; 0], with the rate constants of the
    example script. *)
Definition sir_disease_free_model : gmap string value :=
  SIRWithDemography.__init__ ∅ 0.3 0.1 0.01 [1; 0; 0].

(** Two solvers used to run [simulate] on concrete inputs.  The first one
    reports success and returns the initial state at every grid point; the
    second one is a solver that gives up after the first point: its return
    code is -1 (excess work) and the rows it did not reach are zero. *)
Definition constant_odeint : odeint_t := fun func y0 t =>
  Ok {| rows := map (fun _ => y0) t; istate := 2 |}.

Definition failing_odeint : odeint_t := fun func y0 t =>
  Ok {| rows := y0 :: map (fun _ => map (fun _ => 0) y0) (tail t);
        istate := -1 |}.

(** What a [simulate] method does, for a derivative function [f]. *)
Definition simulate_with (odeint : odeint_t)
    (f : gmap string value -> list R -> R -> result (list R))
    (self : gmap string value) (t : list R) : result (gmap string value) :=
  y0 ← (v ← getattr self "initial_conditions"; as_vector v);
  out ← odeint (f self) y0 t;
  mret (setattr self "results" (VArray (length y0) (rows out))).

(** ** Solutions of the differential equations *)

(** The contract of [odeint] in exact arithmetic.  A trajectory [y] solves
    the differential equation of [func] on the interval [[a, b]] when at
    every time [t] of the interval the state [y t] has [n] components,
    [func (y t) t] returns a vector of [n] derivatives, and each component
    of [y] has at [t] the derivative [func] returns for it. *)
Definition solves (func : list R -> R -> result (list R)) (n : nat)
    (y : R -> list R) (a b : R) : Prop :=
  forall t, a <= t <= b ->
    length (y t) = n
    /\ exists d, func (y t) t = Ok d
                 /\ length d = n
                 /\ forall i, (i < n)%nat ->
                      derivable_pt_lim (fun s => nth i (y s) 0) t (nth i d 0).

(** [y] is a trajectory [odeint func y0 grid] may sample: it solves the
    differential equation on an interval that contains the grid and starts
    from [y0] at the first grid point. *)
Definition trajectory_of (func : list R -> R -> result (list R))
    (y0 grid : list R) (y : R -> list R) : Prop :=
  exists a b,
    Forall (fun t => a <= t <= b) grid
    /\ solves func (length y0) y a b
    /\ (forall t0, head grid = Some t0 -> y t0 = y0).

(** A solver is exact when the array it returns holds, row by row, the
    values at the grid points of such a trajectory. *)
Definition exact (odeint : odeint_t) : Prop :=
  forall func y0 grid out,
    odeint func y0 grid = Ok out ->
    exists y, trajectory_of func y0 grid y /\ rows out = map y grid.

(** The solver that returns the values of a trajectory whenever there is
    one. *)
Definition ideal_odeint : odeint_t := fun func y0 grid =>
  match excluded_middle_informative
          (exists y, trajectory_of func y0 grid y) with
  | left H =>
      Ok {| rows := map (proj1_sig (constructive_indefinite_description _ H))
                      grid;
            istate := 2 |}
  | right _ => Err (Raise "RuntimeError")
  end.

(** The stored result has one row per grid point and all its rows
    satisfy [P]. *)
Definition results_satisfy (grid : list R) (P : list R -> Prop)
    (self : gmap string value) : Prop :=
  exists ncols trajectory,
    getattr self "results" = Ok (VArray ncols trajectory)
    /\ length trajectory = length grid
    /\ Forall P trajectory.

(** The square of [u], weighted by an exponential that decays at rate
    [2 K] from time [t0], and the derivative it has when [u' = c u]. *)
Definition weighted_square (u : R -> R) (t0 K s : R) : R :=
  u s * u s * exp (- (2 * K) * (s - t0)).

Definition weighted_square' (u c : R -> R) (t0 K s : R) : R :=
  2 * (c s - K) * (u s * u s) * exp (- (2 * K) * (s - t0)).

(** ** Solutions in closed form *)

(** A trajectory of the SIR-with-demography system when no transmission
    takes place ([beta * I0 = 0]): the infected decay at rate [gamma + mu]
    and the susceptibles approach 1 at rate [mu]. *)
Definition sir_linear_trajectory (gamma mu S0 I0 R0 t : R) : list R :=
  [1 - (1 - S0) * exp (- mu * t);
   I0 * exp (- (gamma + mu) * t);
   (R0 + I0) * exp (- mu * t) - I0 * exp (- (gamma + mu) * t)].

(** A trajectory of the SEIR system when the exposed never become
    infectious ([sigma = 0]): the infected decay at rate [gamma] and
    infect susceptibles on their way out. *)
Definition seir_removal_trajectory (beta gamma S0 E0 I0 R0 t : R) : list R :=
  [S0 * exp (beta * I0 / gamma * (exp (- gamma * t) - 1));
   E0 + S0 - S0 * exp (beta * I0 / gamma * (exp (- gamma * t) - 1));
   I0 * exp (- gamma * t);
   R0 + I0 * (1 - exp (- gamma * t))].

(** ** Columns of the stored result *)

(** [a[:, j]]: the values of compartment [j] along the trajectory. *)
Definition column (j : nat) (trajectory : list (list R)) : list R :=
  map (fun row => nth j row 0) trajectory.

(** * Properties *)

(** ** Attribute reads on constructed instances *)

Lemma attr_setattr_eq (self : gmap string value) name x :
  attr (setattr self name (VFloat x)) name = Ok x.
Proof. unfold attr, getattr, setattr. by rewrite lookup_insert_eq. Qed.

Lemma attr_setattr_ne (self : gmap string value) name name' v :
  name' ≠ name ->
  attr (setattr self name' v) name = attr self name.
Proof. intros H. unfold attr, getattr, setattr. by rewrite lookup_insert_ne. Qed.

Lemma getattr_setattr_eq (self : gmap string value) name v :
  getattr (setattr self name v) name = Ok v.
Proof. unfold getattr, setattr. by rewrite lookup_insert_eq. Qed.

Lemma getattr_setattr_ne (self : gmap string value) name name' v :
  name' ≠ name ->
  getattr (setattr self name' v) name = getattr self name.
Proof. intros H. unfold getattr, setattr. by rewrite lookup_insert_ne. Qed.

Lemma getattr_empty name : getattr ∅ name = Err AttributeError.
Proof. unfold getattr. by rewrite lookup_empty. Qed.

(** Resolves the attribute reads of a goal about an instance built by a
    chain of assignments. *)
Ltac attrs :=
  repeat first
    [ rewrite attr_setattr_eq
    | rewrite getattr_setattr_eq
    | (rewrite attr_setattr_ne by done)
    | (rewrite getattr_setattr_ne by done)
    | rewrite getattr_empty ].

Ltac unfold_classes :=
  unfold SIRWithDemography.new, SIRWithDemography.__init__,
    SEIRModelWithSeasonality.new, SEIRModelWithSeasonality.__init__,
    SEIRModel.new, SEIRModel.__init__,
    SIRWithDemography.sir_demography_equations,
    SEIRModelWithSeasonality.seir_seasonal_equations,
    SEIRModelWithSeasonality.seir_equations,
    SEIRModel.seir_equations.

(** ** Slices, transposition and unpacking on concrete values *)

Example every_second : every 2 [1; 2; 3; 4; 5]%nat = [1; 3; 5]%nat.
Proof. reflexivity. Qed.

Example every_tenth_of_four : every 10 [1; 2; 3; 4]%nat = [1]%nat.
Proof. reflexivity. Qed.

Example transpose_two_by_three (a b c d e f : R) :
  T (VArray 3 [[a; b; c]; [d; e; f]]) = Ok [[a; d]; [b; e]; [c; f]].
Proof. reflexivity. Qed.

Example unpack_wrong_length (a b : R) :
  unpack3 [a; b] (fun S I R_ => Ok (S + I + R_)) = Err ValueError.
Proof. reflexivity. Qed.

(** ** The derivative functions *)

(** C1. For every state [S, I, R] and every time [t], the derivative
    function of an SIR-with-demography instance constructed with [beta],
    [gamma] and [mu] returns
    [mu - beta*S*I - mu*S; beta*S*I - gamma*I - mu*I; gamma*I - mu*R],
    in that order. *)
Theorem sir_demography_equations_spec
    (beta gamma mu : R) (initial_conditions : list R) (S I R_ t : R) :
  (self ← SIRWithDemography.new beta gamma mu initial_conditions;
   SIRWithDemography.sir_demography_equations self [S; I; R_] t)
  = Ok [mu - beta * S * I - mu * S;
        beta * S * I - gamma * I - mu * I;
        gamma * I - mu * R_].
Proof. unfold_classes. cbn. attrs. reflexivity. Qed.

(** C2. For every state [S, E, I, R] and every time [t], the derivative
    function of an SEIR instance constructed with [beta], [gamma] and
    [sigma] returns
    [-beta*S*I; beta*S*I - sigma*E; sigma*E - gamma*I; gamma*I],
    in that order. *)
Theorem seir_equations_spec
    (beta gamma sigma : R) (initial_conditions : list R) (S E I R_ t : R) :
  (self ← SEIRModel.new beta gamma sigma initial_conditions;
   SEIRModel.seir_equations self [S; E; I; R_] t)
  = Ok [- beta * S * I;
        beta * S * I - sigma * E;
        sigma * E - gamma * I;
        gamma * I].
Proof. unfold_classes. cbn. attrs. reflexivity. Qed.

(** The seasonal constructor is the base constructor followed by one more
    assignment. *)
Lemma seasonal_init_via_base (self : gmap string value)
    (beta0 beta1 gamma sigma : R) (initial_conditions : list R) :
  SEIRModelWithSeasonality.__init__ self beta0 beta1 gamma sigma
    initial_conditions
  = setattr (SEIRModel.__init__ self beta0 gamma sigma initial_conditions)
      "beta1" (VFloat beta1).
Proof. reflexivity. Qed.

(** C3. For every state [S, E, I, R] and every time [t], the seasonal
    derivative function computes
    [beta_t = beta0 * (1 + beta1 * cos (2*pi*t/365))] and returns
    [-beta_t*S*I; beta_t*S*I - sigma*E; sigma*E - gamma*I; gamma*I]; its
    last two components are those of the base SEIR equations; and the
    seasonal constructor stores [beta0] (as [beta]), [gamma], [sigma] and
    the initial conditions through the base constructor and adds only the
    attribute [beta1]. *)
Theorem seir_seasonal_equations_spec
    (beta0 beta1 gamma sigma : R) (initial_conditions : list R)
    (S E I R_ t : R) :
  let beta_t := beta0 * (1 + beta1 * cos (2 * PI * t / 365)) in
  let seasonal :=
    SEIRModelWithSeasonality.__init__ ∅ beta0 beta1 gamma sigma
      initial_conditions in
  let base := SEIRModel.__init__ ∅ beta0 gamma sigma initial_conditions in
  (self ← SEIRModelWithSeasonality.new beta0 beta1 gamma sigma
            initial_conditions;
   SEIRModelWithSeasonality.seir_seasonal_equations self [S; E; I; R_] t)
  = Ok [- beta_t * S * I;
        beta_t * S * I - sigma * E;
        sigma * E - gamma * I;
        gamma * I]
  /\ (exists dS dE dS' dE' dI dR,
        SEIRModelWithSeasonality.seir_seasonal_equations seasonal
          [S; E; I; R_] t = Ok [dS; dE; dI; dR]
        /\ SEIRModel.seir_equations base [S; E; I; R_] t
           = Ok [dS'; dE'; dI; dR])
  /\ SEIRModelWithSeasonality.new beta0 beta1 gamma sigma initial_conditions
     = Ok seasonal
  /\ seasonal = setattr base "beta1" (VFloat beta1)
  /\ dom seasonal = dom base ∪ {["beta1"]}
  /\ getattr seasonal "beta" = Ok (VFloat beta0)
  /\ getattr seasonal "gamma" = Ok (VFloat gamma)
  /\ getattr seasonal "sigma" = Ok (VFloat sigma)
  /\ getattr seasonal "initial_conditions" = Ok (VList initial_conditions)
  /\ getattr seasonal "beta1" = Ok (VFloat beta1).
Proof.
  intros beta_t seasonal base. subst beta_t seasonal base.
  split; [unfold_classes; cbn; attrs; reflexivity|].
  split.
  { do 6 eexists. split; unfold_classes; cbn; attrs; reflexivity. }
  split; [reflexivity|].
  split; [reflexivity|].
  split.
  { rewrite seasonal_init_via_base. unfold setattr.
    rewrite dom_insert_L. set_solver. }
  unfold_classes. repeat split; attrs; reflexivity.
Qed.

(** ** Seasonality with amplitude zero *)

Lemma seasonal_zero_amplitude_pointwise
    (beta0 gamma sigma : R) (ic ic' : list R) (y : list R) (t : R) :
  SEIRModelWithSeasonality.seir_seasonal_equations
    (SEIRModelWithSeasonality.__init__ ∅ beta0 0 gamma sigma ic) y t
  = SEIRModel.seir_equations (SEIRModel.__init__ ∅ beta0 gamma sigma ic') y t.
Proof.
  unfold_classes.
  destruct y as [|S [|E [|I [|R_ [|? ?]]]]]; try reflexivity.
  cbn. attrs. cbn.
  replace (beta0 * (1 + 0 * cos (2 * PI * t / 365))) with beta0 by ring.
  reflexivity.
Qed.

(** C5. With seasonal amplitude [beta1 = 0] the seasonal derivative
    function returns, for every state vector [y] and every time [t], the
    same vector as the base SEIR derivative function with
    [beta = beta0] and the same [gamma] and [sigma]; and [simulate] over
    the same time grid from the same initial conditions stores the same
    trajectory, whatever the solver. *)
Theorem seasonal_zero_amplitude_is_base
    (odeint : odeint_t) (beta0 gamma sigma : R) (initial_conditions : list R)
    (y : list R) (t : R) (grid : list R) :
  (self ← SEIRModelWithSeasonality.new beta0 0 gamma sigma initial_conditions;
   SEIRModelWithSeasonality.seir_seasonal_equations self y t)
  = (self ← SEIRModel.new beta0 gamma sigma initial_conditions;
     SEIRModel.seir_equations self y t)
  /\ (self ← SEIRModelWithSeasonality.new beta0 0 gamma sigma
              initial_conditions;
      self ← SEIRModelWithSeasonality.simulate odeint self grid;
      getattr self "results")
     = (self ← SEIRModel.new beta0 gamma sigma initial_conditions;
        self ← SEIRModel.simulate odeint self grid;
        getattr self "results").
Proof.
  split.
  { cbn. apply seasonal_zero_amplitude_pointwise. }
  cbn. unfold SEIRModelWithSeasonality.simulate, SEIRModel.simulate.
  replace (SEIRModelWithSeasonality.seir_seasonal_equations
             (SEIRModelWithSeasonality.__init__ ∅ beta0 0 gamma sigma
                initial_conditions))
    with (SEIRModel.seir_equations
            (SEIRModel.__init__ ∅ beta0 gamma sigma initial_conditions)).
  2:{ extensionality y'. extensionality t'. symmetry.
      apply seasonal_zero_amplitude_pointwise. }
  unfold_classes. attrs. cbn.
  destruct (odeint _ _ _) as [out|e]; cbn; [|reflexivity].
  attrs. reflexivity.
Qed.

(** ** Dependence on time *)

(** C10. The SIR-with-demography and the base SEIR derivative functions do
    not depend on their time argument: for every instance, every state
    vector and any two times they return the same outcome.  The seasonal
    derivative function does depend on it: there are an instance, a state
    and two times at which its outputs differ. *)
Theorem derivative_time_dependence :
  (forall (self : gmap string value) (y : list R) (t1 t2 : R),
      SIRWithDemography.sir_demography_equations self y t1
      = SIRWithDemography.sir_demography_equations self y t2)
  /\ (forall (self : gmap string value) (y : list R) (t1 t2 : R),
         SEIRModel.seir_equations self y t1
         = SEIRModel.seir_equations self y t2)
  /\ (self ← SEIRModelWithSeasonality.new 0.3 0.2 0.1 0.2 [0.99; 0.0; 0.01; 0];
      SEIRModelWithSeasonality.seir_seasonal_equations self
        [0.99; 0.0; 0.01; 0] 0)
     <> (self ← SEIRModelWithSeasonality.new 0.3 0.2 0.1 0.2
                  [0.99; 0.0; 0.01; 0];
         SEIRModelWithSeasonality.seir_seasonal_equations self
           [0.99; 0.0; 0.01; 0] (365 / 2)).
Proof.
  split; [reflexivity|]. split; [reflexivity|].
  unfold_classes. cbn. attrs. cbn.
  replace (2 * PI * 0 / 365) with 0 by field.
  replace (2 * PI * (365 / 2) / 365) with PI by field.
  rewrite cos_0, cos_PI.
  intros [= H _]. lra.
Qed.

(** ** Construction *)

(** C4, as stated, fails: a negative rate constant, a negative initial
    fraction and initial fractions that sum to 2 are all accepted by the
    constructors, which return an instance and raise nothing. *)
Lemma construction_accepts_invalid_inputs :
  (-0.3 < 0
   /\ SEIRModel.new (-0.3) 0.1 0.2 [0.99; 0; 0.01; 0]
      = Ok (SEIRModel.__init__ ∅ (-0.3) 0.1 0.2 [0.99; 0; 0.01; 0])
   /\ SEIRModel.new (-0.3) 0.1 0.2 [0.99; 0; 0.01; 0]
      <> Err InvalidParameterError)
  /\ (-0.5 < 0
      /\ SIRWithDemography.new 0.3 0.1 0.01 [-0.5; 1.5; 0]
         = Ok (SIRWithDemography.__init__ ∅ 0.3 0.1 0.01 [-0.5; 1.5; 0])
      /\ SIRWithDemography.new 0.3 0.1 0.01 [-0.5; 1.5; 0]
         <> Err InvalidInitialConditionError)
  /\ (total [0.5; 0.5; 0.5; 0.5] = 2
      /\ SEIRModelWithSeasonality.new 0.3 0.2 0.1 0.2 [0.5; 0.5; 0.5; 0.5]
         = Ok (SEIRModelWithSeasonality.__init__ ∅ 0.3 0.2 0.1 0.2
                 [0.5; 0.5; 0.5; 0.5])
      /\ SEIRModelWithSeasonality.new 0.3 0.2 0.1 0.2 [0.5; 0.5; 0.5; 0.5]
         <> Err InvalidInitialConditionError).
Proof.
  repeat split; try lra; try discriminate.
  unfold total; simpl; lra.
Qed.

(** C4, amended.  Construction validates nothing: for all rate constants
    and all initial conditions each of the three constructors returns an
    instance whose attributes are exactly the values given, and raises no
    exception. *)
Theorem construction_stores_arguments_unchecked
    (beta gamma mu sigma beta1 : R) (initial_conditions : list R) :
  (exists self,
      SIRWithDemography.new beta gamma mu initial_conditions = Ok self
      /\ getattr self "beta" = Ok (VFloat beta)
      /\ getattr self "gamma" = Ok (VFloat gamma)
      /\ getattr self "mu" = Ok (VFloat mu)
      /\ getattr self "initial_conditions" = Ok (VList initial_conditions))
  /\ (exists self,
         SEIRModel.new beta gamma sigma initial_conditions = Ok self
         /\ getattr self "beta" = Ok (VFloat beta)
         /\ getattr self "gamma" = Ok (VFloat gamma)
         /\ getattr self "sigma" = Ok (VFloat sigma)
         /\ getattr self "initial_conditions" = Ok (VList initial_conditions))
  /\ (exists self,
         SEIRModelWithSeasonality.new beta beta1 gamma sigma
           initial_conditions = Ok self
         /\ getattr self "beta" = Ok (VFloat beta)
         /\ getattr self "beta1" = Ok (VFloat beta1)
         /\ getattr self "gamma" = Ok (VFloat gamma)
         /\ getattr self "sigma" = Ok (VFloat sigma)
         /\ getattr self "initial_conditions" = Ok (VList initial_conditions)).
Proof.
  repeat split; eexists; (split; [reflexivity|]);
    unfold_classes; repeat split; attrs; reflexivity.
Qed.

(** ** [simulate] and the stored result *)

(** The derivative functions read the rate constants only: assigning
    [results] does not change them. *)
Lemma attr_after_results (self : gmap string value) v name :
  name ≠ "results" ->
  attr (setattr self "results" v) name = attr self name.
Proof. intros H. by apply attr_setattr_ne. Qed.

Lemma sir_equations_after_results (self : gmap string value) v :
  SIRWithDemography.sir_demography_equations (setattr self "results" v)
  = SIRWithDemography.sir_demography_equations self.
Proof.
  extensionality y. extensionality t.
  unfold SIRWithDemography.sir_demography_equations.
  by rewrite !attr_after_results.
Qed.

Lemma seir_equations_after_results (self : gmap string value) v :
  SEIRModel.seir_equations (setattr self "results" v)
  = SEIRModel.seir_equations self.
Proof.
  extensionality y. extensionality t.
  unfold SEIRModel.seir_equations.
  by rewrite !attr_after_results.
Qed.

Lemma seasonal_equations_after_results (self : gmap string value) v :
  SEIRModelWithSeasonality.seir_seasonal_equations (setattr self "results" v)
  = SEIRModelWithSeasonality.seir_seasonal_equations self.
Proof.
  extensionality y. extensionality t.
  unfold SEIRModelWithSeasonality.seir_seasonal_equations.
  by rewrite !attr_after_results.
Qed.

Lemma setattr_setattr (self : gmap string value) name v w :
  setattr (setattr self name v) name w = setattr self name w.
Proof. unfold setattr. apply insert_insert_eq. Qed.

Lemma sir_simulate_unfold odeint :
  SIRWithDemography.simulate odeint
  = simulate_with odeint SIRWithDemography.sir_demography_equations.
Proof. reflexivity. Qed.

Lemma seir_simulate_unfold odeint :
  SEIRModel.simulate odeint = simulate_with odeint SEIRModel.seir_equations.
Proof. reflexivity. Qed.

Lemma seasonal_simulate_unfold odeint :
  SEIRModelWithSeasonality.simulate odeint
  = simulate_with odeint SEIRModelWithSeasonality.seir_seasonal_equations.
Proof. reflexivity. Qed.

Section SimulateWith.
Variable odeint : odeint_t.
Variable f : gmap string value -> list R -> R -> result (list R).
Hypothesis f_after_results : forall self v, f (setattr self "results" v) = f self.

Lemma simulate_with_inv self t self' :
  simulate_with odeint f self t = Ok self' ->
  exists v y0 out,
    getattr self "initial_conditions" = Ok v
    /\ as_vector v = Ok y0
    /\ odeint (f self) y0 t = Ok out
    /\ self' = setattr self "results" (VArray (length y0) (rows out)).
Proof.
  unfold simulate_with. intros H.
  destruct (getattr self "initial_conditions") as [v|e] eqn:Hv;
    cbn in H; [|discriminate].
  destruct (as_vector v) as [y0|e] eqn:Hy0; cbn in H; [|discriminate].
  destruct (odeint (f self) y0 t) as [out|e] eqn:Hout;
    cbn in H; [|discriminate].
  injection H as <-. by exists v, y0, out.
Qed.

Lemma simulate_with_stores self t y0 out :
  getattr self "initial_conditions" = Ok (VList y0) ->
  odeint (f self) y0 t = Ok out ->
  simulate_with odeint f self t
  = Ok (setattr self "results" (VArray (length y0) (rows out))).
Proof.
  intros Hic Hout. unfold simulate_with. rewrite Hic. cbn.
  rewrite Hout. reflexivity.
Qed.

Lemma simulate_with_propagates self t y0 e :
  getattr self "initial_conditions" = Ok (VList y0) ->
  odeint (f self) y0 t = Err e ->
  simulate_with odeint f self t = Err e.
Proof.
  intros Hic Hout. unfold simulate_with. rewrite Hic. cbn.
  rewrite Hout. reflexivity.
Qed.

(** After a successful [simulate] the attribute [results] holds an array,
    every other attribute is as before, and a further [simulate] gives
    what it would have given on the instance before the first one. *)
Lemma simulate_with_assigns self t self' :
  simulate_with odeint f self t = Ok self' ->
  (exists ncols trajectory,
      getattr self' "results" = Ok (VArray ncols trajectory))
  /\ (forall name, name ≠ "results" ->
                   getattr self' name = getattr self name)
  /\ (forall t', simulate_with odeint f self' t'
                 = simulate_with odeint f self t').
Proof.
  intros H. apply simulate_with_inv in H as (v & y0 & out & Hv & Hy0 & Hout & ->).
  split; [|split].
  - eexists _, _. apply getattr_setattr_eq.
  - intros name Hname. by apply getattr_setattr_ne.
  - intros t'. unfold simulate_with.
    rewrite f_after_results.
    rewrite getattr_setattr_ne by done.
    destruct (getattr self "initial_conditions") as [v'|e]; [|reflexivity].
    cbn. destruct (as_vector v') as [y0'|e]; [|reflexivity].
    cbn. destruct (odeint (f self) y0' t') as [out'|e]; [|reflexivity].
    cbn. by rewrite setattr_setattr.
Qed.
End SimulateWith.

(** C8, as stated, fails: when the solver gives up after the first grid
    point and reports it through its return code, [simulate] raises
    nothing; it returns normally and stores the array, of which only the
    first row was computed. *)
Lemma simulate_stores_failed_integration :
  (exists out,
      failing_odeint (SEIRModel.seir_equations seir_model)
        [0.99; 0.0; 0.01; 0] [0; 1; 2] = Ok out
      /\ (istate out < 0)%Z)
  /\ SEIRModel.simulate failing_odeint seir_model [0; 1; 2]
     = Ok (setattr seir_model "results"
             (VArray 4 [[0.99; 0.0; 0.01; 0]; [0; 0; 0; 0]; [0; 0; 0; 0]]))
  /\ SEIRModel.simulate failing_odeint seir_model [0; 1; 2]
     <> Err IntegrationError.
Proof.
  split; [eexists; split; [reflexivity|]; cbn; lia|].
  assert (H : SEIRModel.simulate failing_odeint seir_model [0; 1; 2]
              = Ok (setattr seir_model "results"
                      (VArray 4 [[0.99; 0.0; 0.01; 0];
                                 [0; 0; 0; 0]; [0; 0; 0; 0]]))).
  { unfold SEIRModel.simulate, seir_model. unfold_classes. attrs.
    reflexivity. }
  split; [exact H|]. rewrite H. discriminate.
Qed.

(** C8, amended.  [simulate] does not inspect the outcome of the solver.
    Whenever [odeint] returns an array, with whatever return code,
    [simulate] stores that array as [results] and returns normally; an
    exception raised inside [odeint] reaches the caller unchanged.  This
    holds for the three classes. *)
Theorem simulate_keeps_solver_outcome
    (odeint : odeint_t) (self : gmap string value) (t y0 : list R) :
  getattr self "initial_conditions" = Ok (VList y0) ->
  (forall out,
      odeint (SIRWithDemography.sir_demography_equations self) y0 t = Ok out ->
      SIRWithDemography.simulate odeint self t
      = Ok (setattr self "results" (VArray (length y0) (rows out))))
  /\ (forall e,
         odeint (SIRWithDemography.sir_demography_equations self) y0 t = Err e ->
         SIRWithDemography.simulate odeint self t = Err e)
  /\ (forall out,
         odeint (SEIRModel.seir_equations self) y0 t = Ok out ->
         SEIRModel.simulate odeint self t
         = Ok (setattr self "results" (VArray (length y0) (rows out))))
  /\ (forall e,
         odeint (SEIRModel.seir_equations self) y0 t = Err e ->
         SEIRModel.simulate odeint self t = Err e)
  /\ (forall out,
         odeint (SEIRModelWithSeasonality.seir_seasonal_equations self) y0 t
         = Ok out ->
         SEIRModelWithSeasonality.simulate odeint self t
         = Ok (setattr self "results" (VArray (length y0) (rows out))))
  /\ (forall e,
         odeint (SEIRModelWithSeasonality.seir_seasonal_equations self) y0 t
         = Err e ->
         SEIRModelWithSeasonality.simulate odeint self t = Err e).
Proof.
  intros Hic.
  rewrite sir_simulate_unfold, seir_simulate_unfold, seasonal_simulate_unfold.
  repeat split; intros;
    solve [ eapply simulate_with_stores; eassumption
          | eapply simulate_with_propagates; eassumption ].
Qed.

Lemma simulate_keeps_solver_outcome_witness :
  SEIRModelWithSeasonality.simulate failing_odeint seir_seasonal_model
    [0; 1; 2]
  = Ok (setattr seir_seasonal_model "results"
          (VArray 4 [[0.99; 0.0; 0.01; 0]; [0; 0; 0; 0]; [0; 0; 0; 0]])).
Proof.
  destruct (simulate_keeps_solver_outcome failing_odeint seir_seasonal_model
              [0; 1; 2] [0.99; 0.0; 0.01; 0])
    as (_ & _ & _ & _ & H & _).
  - unfold seir_seasonal_model. unfold_classes. attrs. reflexivity.
  - apply (H {| rows := [[0.99; 0.0; 0.01; 0]; [0; 0; 0; 0]; [0; 0; 0; 0]];
                istate := -1 |}).
    reflexivity.
Defined.

Lemma simulate_with_forward (odeint : odeint_t)
    (f : gmap string value -> list R -> R -> result (list R))
    (self self' : gmap string value) (t : list R) :
  (forall self v, f (setattr self "results" v) = f self) ->
  simulate_with odeint f self t = Ok self' ->
  exists y0 out,
    (v ← getattr self "initial_conditions"; as_vector v) = Ok y0
    /\ odeint (f self) y0 t = Ok out
    /\ self' = setattr self "results" (VArray (length y0) (rows out))
    /\ getattr self' "results" = Ok (VArray (length y0) (rows out))
    /\ (forall name, name ≠ "results" ->
                     getattr self' name = getattr self name)
    /\ (forall t', simulate_with odeint f self' t'
                   = simulate_with odeint f self t').
Proof.
  intros Hf H.
  destruct (simulate_with_assigns odeint f Hf self t self' H)
    as (_ & Hother & Hagain).
  apply simulate_with_inv in H as (v & y0 & out & Hv & Hy0 & Hout & ->).
  exists y0, out. rewrite Hv. cbn.
  split; [exact Hy0|]. split; [exact Hout|]. split; [reflexivity|].
  split; [apply getattr_setattr_eq|]. split; assumption.
Qed.

Lemma simulate_with_backward (odeint : odeint_t)
    (f : gmap string value -> list R -> R -> result (list R))
    (self : gmap string value) (t y0 : list R) (out : odeint_output) :
  (v ← getattr self "initial_conditions"; as_vector v) = Ok y0 ->
  odeint (f self) y0 t = Ok out ->
  simulate_with odeint f self t
  = Ok (setattr self "results" (VArray (length y0) (rows out))).
Proof.
  intros Hy0 Hout. unfold simulate_with. rewrite Hy0. cbn.
  rewrite Hout. reflexivity.
Qed.

(** C9.  A freshly constructed instance of any of the three classes has no
    attribute [results]: reading it, directly or through a plotting method,
    raises [AttributeError].  [simulate] returns exactly when [odeint]
    returns on the instance's derivative function, initial conditions and
    time grid, and then the instance is the former one with [results]
    assigned the array [odeint] returned: every other attribute is as it
    was, and a later [simulate] call gives exactly what it would have
    given had the earlier result never been stored. *)
Theorem results_exist_only_after_simulate
    (odeint : odeint_t) (fft : fft_t) (fftfreq : fftfreq_t)
    (beta gamma mu sigma beta1 : R) (initial_conditions t : list R) :
  ((self ← SIRWithDemography.new beta gamma mu initial_conditions;
    getattr self "results") = Err AttributeError
   /\ (self ← SEIRModel.new beta gamma sigma initial_conditions;
       getattr self "results") = Err AttributeError
   /\ (self ← SEIRModelWithSeasonality.new beta beta1 gamma sigma
               initial_conditions;
       getattr self "results") = Err AttributeError)
  /\ ((self ← SIRWithDemography.new beta gamma mu initial_conditions;
       SIRWithDemography.plot_results self t) = Err AttributeError
      /\ (self ← SIRWithDemography.new beta gamma mu initial_conditions;
          SIRWithDemography.plot_phase_portrait self) = Err AttributeError
      /\ (self ← SEIRModel.new beta gamma sigma initial_conditions;
          SEIRModel.plot_results self t) = Err AttributeError
      /\ (self ← SEIRModel.new beta gamma sigma initial_conditions;
          SEIRModel.plot_phase_portrait self) = Err AttributeError
      /\ (self ← SEIRModel.new beta gamma sigma initial_conditions;
          SEIRModel.plot_fourier_transform fft fftfreq self t)
         = Err AttributeError
      /\ (self ← SEIRModelWithSeasonality.new beta beta1 gamma sigma
                  initial_conditions;
          SEIRModelWithSeasonality.plot_results self t) = Err AttributeError
      /\ (self ← SEIRModelWithSeasonality.new beta beta1 gamma sigma
                  initial_conditions;
          SEIRModelWithSeasonality.plot_phase_portrait self)
         = Err AttributeError
      /\ (self ← SEIRModelWithSeasonality.new beta beta1 gamma sigma
                  initial_conditions;
          SEIRModelWithSeasonality.plot_fourier_transform fft fftfreq self t)
         = Err AttributeError)
  /\ (forall self self',
         SIRWithDemography.simulate odeint self t = Ok self' ->
         exists y0 out,
           (v ← getattr self "initial_conditions"; as_vector v) = Ok y0
           /\ odeint (SIRWithDemography.sir_demography_equations self) y0 t
              = Ok out
           /\ self' = setattr self "results" (VArray (length y0) (rows out))
           /\ getattr self' "results" = Ok (VArray (length y0) (rows out))
           /\ (forall name, name ≠ "results" ->
                            getattr self' name = getattr self name)
           /\ (forall t', SIRWithDemography.simulate odeint self' t'
                          = SIRWithDemography.simulate odeint self t'))
  /\ (forall self self',
         SEIRModel.simulate odeint self t = Ok self' ->
         exists y0 out,
           (v ← getattr self "initial_conditions"; as_vector v) = Ok y0
           /\ odeint (SEIRModel.seir_equations self) y0 t = Ok out
           /\ self' = setattr self "results" (VArray (length y0) (rows out))
           /\ getattr self' "results" = Ok (VArray (length y0) (rows out))
           /\ (forall name, name ≠ "results" ->
                            getattr self' name = getattr self name)
           /\ (forall t', SEIRModel.simulate odeint self' t'
                          = SEIRModel.simulate odeint self t'))
  /\ (forall self self',
         SEIRModelWithSeasonality.simulate odeint self t = Ok self' ->
         exists y0 out,
           (v ← getattr self "initial_conditions"; as_vector v) = Ok y0
           /\ odeint (SEIRModelWithSeasonality.seir_seasonal_equations self)
                y0 t = Ok out
           /\ self' = setattr self "results" (VArray (length y0) (rows out))
           /\ getattr self' "results" = Ok (VArray (length y0) (rows out))
           /\ (forall name, name ≠ "results" ->
                            getattr self' name = getattr self name)
           /\ (forall t', SEIRModelWithSeasonality.simulate odeint self' t'
                          = SEIRModelWithSeasonality.simulate odeint self t'))
  /\ (forall self y0 out,
         (v ← getattr self "initial_conditions"; as_vector v) = Ok y0 ->
         (odeint (SIRWithDemography.sir_demography_equations self) y0 t
          = Ok out ->
          SIRWithDemography.simulate odeint self t
          = Ok (setattr self "results" (VArray (length y0) (rows out))))
         /\ (odeint (SEIRModel.seir_equations self) y0 t = Ok out ->
             SEIRModel.simulate odeint self t
             = Ok (setattr self "results" (VArray (length y0) (rows out))))
         /\ (odeint (SEIRModelWithSeasonality.seir_seasonal_equations self)
               y0 t = Ok out ->
             SEIRModelWithSeasonality.simulate odeint self t
             = Ok (setattr self "results"
                     (VArray (length y0) (rows out))))).
Proof.
  split; [|split].
  - unfold_classes. cbn. repeat split; attrs; reflexivity.
  - unfold SIRWithDemography.plot_results,
      SIRWithDemography.plot_phase_portrait,
      SEIRModelWithSeasonality.plot_results,
      SEIRModelWithSeasonality.plot_phase_portrait,
      SEIRModelWithSeasonality.plot_fourier_transform,
      SEIRModel.plot_results, SEIRModel.plot_phase_portrait,
      SEIRModel.plot_fourier_transform.
    unfold_classes. cbn. repeat split; attrs; reflexivity.
  - rewrite sir_simulate_unfold, seir_simulate_unfold,
      seasonal_simulate_unfold.
    split; [|split; [|split]].
    + intros self self'. apply simulate_with_forward.
      apply sir_equations_after_results.
    + intros self self'. apply simulate_with_forward.
      apply seir_equations_after_results.
    + intros self self'. apply simulate_with_forward.
      apply seasonal_equations_after_results.
    + intros self y0 out Hy0.
      split; [|split]; intros Hout; by apply simulate_with_backward.
Qed.

(** ** Trajectories of the three systems *)

Lemma ideal_odeint_exact : exact ideal_odeint.
Proof.
  intros func y0 grid out. unfold ideal_odeint.
  destruct (excluded_middle_informative _) as [H|H]; [|discriminate].
  intros [= <-]. cbn.
  destruct (constructive_indefinite_description _ H) as (y & Hy). cbn.
  by exists y.
Qed.

Lemma ideal_odeint_returns func y0 grid y :
  trajectory_of func y0 grid y ->
  exists out, ideal_odeint func y0 grid = Ok out.
Proof.
  intros Hy. unfold ideal_odeint.
  destruct (excluded_middle_informative _) as [H|H].
  - by eexists.
  - exfalso. apply H. by exists y.
Qed.

Lemma constant_of_zero_derivative (g : R -> R) (a b : R) :
  (forall t, a <= t <= b -> derivable_pt_lim g t 0) ->
  forall s t, a <= s <= b -> a <= t <= b -> g s = g t.
Proof.
  intros Hd.
  assert (Hlt : forall s t, a <= s <= b -> a <= t <= b -> s < t -> g s = g t).
  { intros s t Hs Ht Hst.
    destruct (MVT_cor2 g (fun _ => 0) s t Hst) as (c & Hc & _).
    - intros c Hc. apply Hd. lra.
    - lra. }
  intros s t Hs Ht.
  destruct (Rtotal_order s t) as [H | [H | H]].
  - by apply Hlt.
  - by subst.
  - symmetry. by apply Hlt.
Qed.

(** A solution of [u' = c u] with continuous [c] that vanishes at one time
    of the interval vanishes on the whole interval. *)
Section LinearODE.
Variables (u c : R -> R) (a b t0 : R).
Hypothesis Ht0 : a <= t0 <= b.
Hypothesis Hu : forall t, a <= t <= b -> derivable_pt_lim u t (c t * u t).
Hypothesis Hc : forall t, a <= t <= b -> continuity_pt c t.
Hypothesis Hu0 : u t0 = 0.

Abbreviation h := (weighted_square u t0).
Abbreviation h' := (weighted_square' u c t0).

Lemma weighted_square_derivative K s :
  a <= s <= b -> derivable_pt_lim (h K) s (h' K s).
Proof.
  intros Hs.
  assert (H1 : derivable_pt_lim (u * u)%F s
                 (c s * u s * u s + u s * (c s * u s))).
  { apply derivable_pt_lim_mult; apply Hu; exact Hs. }
  assert (H2 : derivable_pt_lim
                 (mult_real_fct (- (2 * K)) (id - fct_cte t0)%F) s
                 (- (2 * K) * (1 - 0))).
  { apply derivable_pt_lim_scal, derivable_pt_lim_minus.
    - apply derivable_pt_lim_id.
    - apply derivable_pt_lim_const. }
  pose proof (derivable_pt_lim_comp _ _ _ _ _ H2
                (derivable_pt_lim_exp _)) as H3.
  pose proof (derivable_pt_lim_mult _ _ _ _ _ H1 H3) as H4.
  replace (h' K s) with
    ((c s * u s * u s + u s * (c s * u s))
     * comp exp (mult_real_fct (- (2 * K)) (id - fct_cte t0)%F) s
     + (u * u)%F s
       * (exp (mult_real_fct (- (2 * K)) (id - fct_cte t0)%F s)
          * (- (2 * K) * (1 - 0)))).
  - exact H4.
  - unfold h', comp, mult_real_fct, minus_fct, mult_fct, id, fct_cte. ring.
Qed.

Lemma weighted_square_nonneg K s : 0 <= h K s.
Proof.
  unfold h. apply Rmult_le_pos.
  - apply Rle_0_sqr.
  - left. apply exp_pos.
Qed.

Lemma weighted_square_zero K s : h K s <= 0 -> u s = 0.
Proof.
  intros H. pose proof (weighted_square_nonneg K s) as H0.
  assert (Hz : h K s = 0) by lra. unfold h in Hz.
  apply Rmult_integral in Hz as [Hz | Hz].
  - apply Rmult_integral in Hz. tauto.
  - pose proof (exp_pos (- (2 * K) * (s - t0))). lra.
Qed.

Lemma linear_ode_zero t : a <= t <= b -> u t = 0.
Proof.
  intros Ht.
  destruct (continuity_ab_maj c a b ltac:(lra) Hc) as (M & HM & _).
  destruct (continuity_ab_min c a b ltac:(lra) Hc) as (m & Hm & _).
  assert (Hh0 : forall K, h K t0 = 0).
  { intros K. unfold h. rewrite Hu0. ring. }
  destruct (Rtotal_order t0 t) as [Hlt | [Heq | Hgt]].
  - apply (weighted_square_zero (c M)).
    destruct (MVT_cor2 (h (c M)) (h' (c M)) t0 t Hlt) as (x & Hx & Hin).
    { intros s Hs. apply weighted_square_derivative. lra. }
    assert (Hneg : h' (c M) x <= 0).
    { unfold h'.
      pose proof (HM x ltac:(lra)).
      pose proof (Rle_0_sqr (u x)) as Hsq. unfold Rsqr in Hsq.
      pose proof (exp_pos (- (2 * c M) * (x - t0))).
      assert (0 <= (u x * u x) * exp (- (2 * c M) * (x - t0))).
      { apply Rmult_le_pos; lra. }
      nra. }
    rewrite Hh0 in Hx. nra.
  - by subst.
  - apply (weighted_square_zero (c m)).
    destruct (MVT_cor2 (h (c m)) (h' (c m)) t t0 Hgt) as (x & Hx & Hin).
    { intros s Hs. apply weighted_square_derivative. lra. }
    assert (Hpos : 0 <= h' (c m) x).
    { unfold h'.
      pose proof (Hm x ltac:(lra)).
      pose proof (Rle_0_sqr (u x)) as Hsq. unfold Rsqr in Hsq.
      pose proof (exp_pos (- (2 * c m) * (x - t0))).
      assert (0 <= (u x * u x) * exp (- (2 * c m) * (x - t0))).
      { apply Rmult_le_pos; lra. }
      nra. }
    rewrite Hh0 in Hx. nra.
Qed.
End LinearODE.

(** What the derivative functions return, read backwards. *)
Lemma sir_equations_inv (self : gmap string value) y t d :
  SIRWithDemography.sir_demography_equations self y t = Ok d ->
  exists beta gamma mu S I R_,
    attr self "beta" = Ok beta
    /\ attr self "gamma" = Ok gamma
    /\ attr self "mu" = Ok mu
    /\ y = [S; I; R_]
    /\ d = [mu - beta * S * I - mu * S;
            beta * S * I - gamma * I - mu * I;
            gamma * I - mu * R_].
Proof.
  unfold SIRWithDemography.sir_demography_equations.
  destruct y as [|S [|I [|R_ [|? ?]]]]; try discriminate.
  cbn.
  destruct (attr self "mu") as [mu|?]; [|discriminate].
  destruct (attr self "beta") as [beta|?]; [|discriminate].
  destruct (attr self "gamma") as [gamma|?]; [|discriminate].
  cbn. intros [= <-]. by exists beta, gamma, mu, S, I, R_.
Qed.

Lemma seir_equations_inv (self : gmap string value) y t d :
  SEIRModel.seir_equations self y t = Ok d ->
  exists beta gamma sigma S E I R_,
    attr self "beta" = Ok beta
    /\ attr self "gamma" = Ok gamma
    /\ attr self "sigma" = Ok sigma
    /\ y = [S; E; I; R_]
    /\ d = [- beta * S * I;
            beta * S * I - sigma * E;
            sigma * E - gamma * I;
            gamma * I].
Proof.
  unfold SEIRModel.seir_equations.
  destruct y as [|S [|E [|I [|R_ [|? ?]]]]]; try discriminate.
  cbn.
  destruct (attr self "beta") as [beta|?]; [|discriminate].
  destruct (attr self "sigma") as [sigma|?]; [|discriminate].
  destruct (attr self "gamma") as [gamma|?]; [|discriminate].
  cbn. intros [= <-]. by exists beta, gamma, sigma, S, E, I, R_.
Qed.


(** A trajectory of the SIR-with-demography equations, component by
    component. *)
Lemma sir_solution_components (self : gmap string value) n y a b t0 :
  a <= t0 <= b ->
  solves (SIRWithDemography.sir_demography_equations self) n y a b ->
  exists beta gamma mu,
    forall t, a <= t <= b ->
      let S := nth 0 (y t) 0 in
      let I := nth 1 (y t) 0 in
      let R_ := nth 2 (y t) 0 in
      y t = [S; I; R_]
      /\ derivable_pt_lim (fun s => nth 0 (y s) 0) t
           (mu - beta * S * I - mu * S)
      /\ derivable_pt_lim (fun s => nth 1 (y s) 0) t
           (beta * S * I - gamma * I - mu * I)
      /\ derivable_pt_lim (fun s => nth 2 (y s) 0) t
           (gamma * I - mu * R_).
Proof.
  intros Ht0 Hsol.
  destruct (Hsol t0 Ht0) as (Hlen0 & d0 & Hd0 & _ & _).
  apply sir_equations_inv in Hd0
    as (beta & gamma & mu & S0 & I0 & R0 & Hb & Hg & Hm & Hy0 & _).
  assert (Hn : n = 3%nat) by (rewrite <- Hlen0, Hy0; reflexivity).
  subst n. exists beta, gamma, mu. intros t Ht.
  destruct (Hsol t Ht) as (_ & d & Hd & _ & Hder).
  apply sir_equations_inv in Hd
    as (beta' & gamma' & mu' & S & I & R_ & Hb' & Hg' & Hm' & Hy & ->).
  rewrite Hb in Hb'. rewrite Hg in Hg'. rewrite Hm in Hm'.
  injection Hb' as <-. injection Hg' as <-. injection Hm' as <-.
  rewrite Hy. cbn [nth].
  split; [reflexivity|].
  split; [exact (Hder 0%nat ltac:(lia))|].
  split; [exact (Hder 1%nat ltac:(lia))|exact (Hder 2%nat ltac:(lia))].
Qed.

(** The infected compartment of a trajectory that has [I = 0] at one time
    is zero on the whole interval. *)
Lemma sir_disease_free_trajectory (self : gmap string value) n y a b t0 :
  a <= t0 <= b ->
  solves (SIRWithDemography.sir_demography_equations self) n y a b ->
  nth 1 (y t0) 0 = 0 ->
  forall t, a <= t <= b -> nth 1 (y t) 0 = 0.
Proof.
  intros Ht0 Hsol H0.
  destruct (sir_solution_components self n y a b t0 Ht0 Hsol)
    as (beta & gamma & mu & Hcomp).
  apply (linear_ode_zero (fun s => nth 1 (y s) 0)
           (fun s => beta * nth 0 (y s) 0 - gamma - mu) a b t0 Ht0);
    [| |exact H0].
  - intros t Ht. destruct (Hcomp t Ht) as (_ & _ & HI & _).
    cbn zeta in HI.
    replace ((beta * nth 0 (y t) 0 - gamma - mu) * nth 1 (y t) 0)
      with (beta * nth 0 (y t) 0 * nth 1 (y t) 0 - gamma * nth 1 (y t) 0
            - mu * nth 1 (y t) 0) by ring.
    exact HI.
  - intros t Ht. destruct (Hcomp t Ht) as (_ & HS & _).
    apply derivable_continuous_pt.
    eexists.
    apply (derivable_pt_lim_minus
             (mult_real_fct beta (fun s => nth 0 (y s) 0) - fct_cte gamma)%F
             (fct_cte mu)).
    + apply derivable_pt_lim_minus.
      * apply derivable_pt_lim_scal. exact HS.
      * apply derivable_pt_lim_const.
    + apply derivable_pt_lim_const.
Qed.





(** What an exact solver leaves in [results]: every property that holds
    along all trajectories from the initial state holds for every row. *)
Lemma exact_simulate_rows (odeint : odeint_t)
    (f : gmap string value -> list R -> R -> result (list R))
    (self self' : gmap string value) (y0 grid : list R)
    (P : list R -> Prop) :
  exact odeint ->
  getattr self "initial_conditions" = Ok (VList y0) ->
  simulate_with odeint f self grid = Ok self' ->
  (forall n y a b t0,
      a <= t0 <= b -> solves (f self) n y a b -> y t0 = y0 ->
      forall t, a <= t <= b -> P (y t)) ->
  results_satisfy grid P self'.
Proof.
  intros Hexact Hic Hsim HP.
  apply simulate_with_inv in Hsim as (v & y0' & out & Hv & Hy0 & Hout & ->).
  rewrite Hic in Hv. injection Hv as <-. cbn in Hy0. injection Hy0 as <-.
  apply Hexact in Hout as (y & (a & b & Hgrid & Hsol & Hhead) & Hrows).
  exists (length y0), (rows out).
  split; [apply getattr_setattr_eq|].
  rewrite Hrows. split; [apply length_map|].
  destruct grid as [|t0 grid']; [constructor|].
  specialize (Hhead t0 eq_refl).
  assert (Ht0 : a <= t0 <= b) by (by inversion Hgrid).
  apply Forall_map. eapply Forall_impl; [exact Hgrid|].
  intros t Ht. cbn. by apply (HP (length y0) y a b t0).
Qed.

(** A state at which the derivative function returns only zeros is the
    value of a constant trajectory. *)
Lemma constant_trajectory_solves
    (func : list R -> R -> result (list R)) (y0 : list R) (a b : R) :
  (forall t, a <= t <= b ->
     exists d, func y0 t = Ok d
               /\ length d = length y0 /\ Forall (fun x => x = 0) d) ->
  solves func (length y0) (fun _ => y0) a b.
Proof.
  intros H t Ht. split; [reflexivity|].
  destruct (H t Ht) as (d & Hd & Hlen & Hzero).
  exists d. split; [exact Hd|]. split; [exact Hlen|].
  intros i _.
  assert (Hi : nth i d 0 = 0).
  { destruct (nth_in_or_default i d 0) as [Hin|Hdef]; [|exact Hdef].
    rewrite Forall_forall in Hzero. apply Hzero.
    by apply list_elem_of_In. }
  rewrite Hi. apply (derivable_pt_lim_const (nth i y0 0)).
Qed.

Lemma sir_disease_free_equilibrium (grid : list R) (a b : R) :
  Forall (fun t => a <= t <= b) grid ->
  trajectory_of
    (SIRWithDemography.sir_demography_equations sir_disease_free_model)
    [1; 0; 0] grid (fun _ => [1; 0; 0]).
Proof.
  intros Hgrid. exists a, b. split; [exact Hgrid|]. split; [|done].
  apply (constant_trajectory_solves _ [1; 0; 0]).
  intros t _. eexists. split.
  { unfold sir_disease_free_model. unfold_classes. cbn. attrs. reflexivity. }
  split; [reflexivity|].
  repeat constructor; lra.
Qed.

Lemma sir_disease_free_simulate :
  exists self',
    SIRWithDemography.simulate ideal_odeint sir_disease_free_model [0; 1; 2]
    = Ok self'.
Proof.
  destruct (ideal_odeint_returns
              (SIRWithDemography.sir_demography_equations
                 sir_disease_free_model)
              [1; 0; 0] [0; 1; 2] (fun _ => [1; 0; 0])) as (out & Hout).
  { apply (sir_disease_free_equilibrium _ 0 2). repeat constructor; lra. }
  eexists. rewrite sir_simulate_unfold.
  apply (simulate_with_stores _ _ _ _ [1; 0; 0] out); [|exact Hout].
  unfold sir_disease_free_model. unfold_classes. attrs. reflexivity.
Qed.

(** C7.  For the SIR-with-demography model the set [I = 0] is invariant.
    At every state [S, 0, R] and every time the infected component of the
    derivative is 0.  Hence a trajectory of the equations that has [I = 0]
    at one time has [I = 0] on its whole interval, and when the solver is
    exact a [simulate] call started from [I0 = 0] stores a result whose
    infected column is 0 at every point of the grid. *)
Theorem disease_free_set_is_invariant :
  (forall beta gamma mu initial_conditions S R_ t,
      exists dS dR,
        (self ← SIRWithDemography.new beta gamma mu initial_conditions;
         SIRWithDemography.sir_demography_equations self [S; 0; R_] t)
        = Ok [dS; 0; dR])
  /\ (forall (self : gmap string value) S R_ t d,
         SIRWithDemography.sir_demography_equations self [S; 0; R_] t = Ok d ->
         exists dS dR, d = [dS; 0; dR])
  /\ (forall (self : gmap string value) n y a b t0,
         a <= t0 <= b ->
         solves (SIRWithDemography.sir_demography_equations self) n y a b ->
         nth 1 (y t0) 0 = 0 ->
         forall t, a <= t <= b -> nth 1 (y t) 0 = 0)
  /\ (forall odeint (self self' : gmap string value) S0 R0 grid,
         exact odeint ->
         getattr self "initial_conditions" = Ok (VList [S0; 0; R0]) ->
         SIRWithDemography.simulate odeint self grid = Ok self' ->
         results_satisfy grid (fun row => nth 1 row 0 = 0) self').
Proof.
  split; [|split; [|split]].
  - intros. exists (mu - beta * S * 0 - mu * S), (gamma * 0 - mu * R_).
    unfold_classes. cbn. attrs. cbn. do 3 f_equal. ring.
  - intros self S R_ t d H. apply sir_equations_inv in H
      as (beta & gamma & mu & S' & I' & R' & _ & _ & _ & [= <- <- <-] & ->).
    exists (mu - beta * S * 0 - mu * S), (gamma * 0 - mu * R_).
    do 2 f_equal. ring.
  - exact sir_disease_free_trajectory.
  - intros odeint self self' S0 R0 grid Hexact Hic Hsim.
    rewrite sir_simulate_unfold in Hsim.
    apply (exact_simulate_rows odeint
             SIRWithDemography.sir_demography_equations
             self self' [S0; 0; R0] grid);
      [exact Hexact|exact Hic|exact Hsim|].
    intros n y a b t0 Ht0 Hsol Hy0 t Ht.
    apply (sir_disease_free_trajectory self n y a b t0 Ht0 Hsol); [|exact Ht].
    by rewrite Hy0.
Qed.

Lemma disease_free_set_is_invariant_witness :
  exists self',
    SIRWithDemography.simulate ideal_odeint sir_disease_free_model [0; 1; 2]
    = Ok self'
    /\ results_satisfy [0; 1; 2] (fun row => nth 1 row 0 = 0) self'.
Proof.
  destruct sir_disease_free_simulate as (self' & Hsim).
  exists self'. split; [exact Hsim|].
  destruct disease_free_set_is_invariant as (_ & _ & _ & H).
  apply (H ideal_odeint sir_disease_free_model self' 1 0 [0; 1; 2]).
  - exact ideal_odeint_exact.
  - unfold sir_disease_free_model. unfold_classes. attrs. reflexivity.
  - exact Hsim.
Defined.

(** ** The arithmetic of the code *)

Module Binary64Facts.

Import Floats.
Local Open Scope float_scope.


End Binary64Facts.


Lemma results_exist_only_after_simulate_witness :
  exists self',
    SEIRModel.simulate failing_odeint seir_model [0; 1; 2] = Ok self'
    /\ getattr self' "results"
       = Ok (VArray 4 [[0.99; 0.0; 0.01; 0]; [0; 0; 0; 0]; [0; 0; 0; 0]])
    /\ getattr self' "beta" = getattr seir_model "beta"
    /\ SEIRModel.simulate failing_odeint self' [0; 1]
       = SEIRModel.simulate failing_odeint seir_model [0; 1].
Proof.
  destruct (results_exist_only_after_simulate failing_odeint
              (fun _ => Ok []) (fun _ _ => Ok []) 0 0 0 0 0 [] [0; 1; 2])
    as (_ & _ & _ & Hforward & _ & Hbackward).
  destruct (Hbackward seir_model [0.99; 0.0; 0.01; 0]
              {| rows := [[0.99; 0.0; 0.01; 0]; [0; 0; 0; 0]; [0; 0; 0; 0]];
                 istate := -1 |}) as (_ & Hsim & _).
  { unfold seir_model. unfold_classes. attrs. reflexivity. }
  specialize (Hsim eq_refl).
  eexists. split; [exact Hsim|].
  destruct (Hforward seir_model _ Hsim)
    as (y0 & out & Hy0 & Hout & _ & Hres & Hother & Hagain).
  split; [apply getattr_setattr_eq|].
  split; [by apply Hother|apply Hagain].
Defined.

(** * Further properties of the classes *)

(** ** The derivative functions on arbitrary instances *)

Lemma sir_equations_eval (self : gmap string value) beta gamma mu S I R_ t :
  attr self "beta" = Ok beta ->
  attr self "gamma" = Ok gamma ->
  attr self "mu" = Ok mu ->
  SIRWithDemography.sir_demography_equations self [S; I; R_] t
  = Ok [mu - beta * S * I - mu * S;
        beta * S * I - gamma * I - mu * I;
        gamma * I - mu * R_].
Proof.
  intros Hb Hg Hm. unfold SIRWithDemography.sir_demography_equations.
  cbn. rewrite Hb, Hg, Hm. reflexivity.
Qed.

Lemma seir_equations_eval (self : gmap string value) beta gamma sigma
    S E I R_ t :
  attr self "beta" = Ok beta ->
  attr self "gamma" = Ok gamma ->
  attr self "sigma" = Ok sigma ->
  SEIRModel.seir_equations self [S; E; I; R_] t
  = Ok [- beta * S * I;
        beta * S * I - sigma * E;
        sigma * E - gamma * I;
        gamma * I].
Proof.
  intros Hb Hg Hs. unfold SEIRModel.seir_equations.
  cbn. rewrite Hb, Hg, Hs. reflexivity.
Qed.

Lemma seasonal_equations_eval (self : gmap string value) beta beta1 gamma
    sigma S E I R_ t :
  attr self "beta" = Ok beta ->
  attr self "beta1" = Ok beta1 ->
  attr self "gamma" = Ok gamma ->
  attr self "sigma" = Ok sigma ->
  SEIRModelWithSeasonality.seir_seasonal_equations self [S; E; I; R_] t
  = Ok [- (beta * (1 + beta1 * cos (2 * PI * t / 365))) * S * I;
        beta * (1 + beta1 * cos (2 * PI * t / 365)) * S * I - sigma * E;
        sigma * E - gamma * I;
        gamma * I].
Proof.
  intros Hb Hb1 Hg Hs.
  unfold SEIRModelWithSeasonality.seir_seasonal_equations.
  cbn. rewrite Hb, Hb1, Hg, Hs. reflexivity.
Qed.

Lemma unpack3_wrong_length {A B : Type} (y : list A)
    (k : A -> A -> A -> result B) :
  length y ≠ 3%nat -> unpack3 y k = Err ValueError.
Proof. by destruct y as [|? [|? [|? [|? ?]]]]. Qed.

Lemma unpack4_wrong_length {A B : Type} (y : list A)
    (k : A -> A -> A -> A -> result B) :
  length y ≠ 4%nat -> unpack4 y k = Err ValueError.
Proof. by destruct y as [|? [|? [|? [|? [|? ?]]]]]. Qed.

(** Every derivative function unpacks the state vector before it reads an
    attribute: a state vector of the wrong length raises [ValueError]
    whatever the instance holds.  With a state vector of the right length,
    an instance without the rate constant that is read first ([mu] for the
    SIR function, [beta] for the two SEIR functions) raises
    [AttributeError], and an instance whose rate constants are floats
    makes each of the three functions return one derivative per
    compartment. *)
Theorem derivative_functions_error_behaviour
    (self : gmap string value) (y : list R) (t : R) :
  (length y ≠ 3%nat ->
   SIRWithDemography.sir_demography_equations self y t = Err ValueError)
  /\ (length y ≠ 4%nat ->
      SEIRModel.seir_equations self y t = Err ValueError
      /\ SEIRModelWithSeasonality.seir_seasonal_equations self y t
         = Err ValueError)
  /\ (length y = 3%nat -> self !! "mu" = None ->
      SIRWithDemography.sir_demography_equations self y t
      = Err AttributeError)
  /\ (length y = 4%nat -> self !! "beta" = None ->
      SEIRModel.seir_equations self y t = Err AttributeError
      /\ SEIRModelWithSeasonality.seir_seasonal_equations self y t
         = Err AttributeError)
  /\ (length y = 3%nat ->
      forall beta gamma mu,
        self !! "beta" = Some (VFloat beta) ->
        self !! "gamma" = Some (VFloat gamma) ->
        self !! "mu" = Some (VFloat mu) ->
        exists d, SIRWithDemography.sir_demography_equations self y t = Ok d
                  /\ length d = 3%nat)
  /\ (length y = 4%nat ->
      forall beta gamma sigma,
        self !! "beta" = Some (VFloat beta) ->
        self !! "gamma" = Some (VFloat gamma) ->
        self !! "sigma" = Some (VFloat sigma) ->
        (exists d, SEIRModel.seir_equations self y t = Ok d
                   /\ length d = 4%nat)
        /\ forall beta1,
             self !! "beta1" = Some (VFloat beta1) ->
             exists d,
               SEIRModelWithSeasonality.seir_seasonal_equations self y t
               = Ok d
               /\ length d = 4%nat).
Proof.
  assert (Hattr : forall name x,
             self !! name = Some (VFloat x) -> attr self name = Ok x).
  { intros name x H. unfold attr, getattr. by rewrite H. }
  split; [|split; [|split; [|split; [|split]]]].
  - apply unpack3_wrong_length.
  - intros H. split; by apply unpack4_wrong_length.
  - intros Hlen Hmu.
    destruct y as [|S [|I [|R_ [|? ?]]]]; try discriminate.
    unfold SIRWithDemography.sir_demography_equations, attr, getattr.
    cbn. by rewrite Hmu.
  - intros Hlen Hbeta.
    destruct y as [|S [|E [|I [|R_ [|? ?]]]]]; try discriminate.
    unfold SEIRModel.seir_equations,
      SEIRModelWithSeasonality.seir_seasonal_equations, attr, getattr.
    cbn. by rewrite Hbeta.
  - intros Hlen beta gamma mu Hb Hg Hm.
    destruct y as [|S [|I [|R_ [|? ?]]]]; try discriminate.
    eexists. split; [apply sir_equations_eval; by apply Hattr|reflexivity].
  - intros Hlen beta gamma sigma Hb Hg Hs.
    destruct y as [|S [|E [|I [|R_ [|? ?]]]]]; try discriminate.
    split.
    + eexists.
      split; [apply seir_equations_eval; by apply Hattr|reflexivity].
    + intros beta1 Hb1. eexists.
      split; [apply seasonal_equations_eval; by apply Hattr|reflexivity].
Qed.

Lemma derivative_functions_error_behaviour_witness :
  SIRWithDemography.sir_demography_equations sir_demo_model [0.99; 0.01] 0
  = Err ValueError
  /\ SEIRModel.seir_equations ∅ [0.99; 0.0; 0.01; 0] 0 = Err AttributeError
  /\ exists d,
       SEIRModelWithSeasonality.seir_seasonal_equations seir_seasonal_model
         [0.99; 0.0; 0.01; 0] 0 = Ok d
       /\ length d = 4%nat.
Proof.
  split; [|split].
  - apply (derivative_functions_error_behaviour sir_demo_model
             [0.99; 0.01] 0). cbn. lia.
  - apply (derivative_functions_error_behaviour ∅ [0.99; 0.0; 0.01; 0] 0);
      [reflexivity|apply lookup_empty].
  - destruct (derivative_functions_error_behaviour seir_seasonal_model
                [0.99; 0.0; 0.01; 0] 0) as (_ & _ & _ & _ & _ & H).
    destruct (H eq_refl 0.3 0.1 0.2) as (_ & Hseasonal);
      [reflexivity..|].
    apply (Hseasonal 0.2). reflexivity.
Defined.

(** ** Seasonal forcing *)

(** At every time the seasonal derivative function is the base SEIR
    derivative function of the model whose transmission rate is the
    instantaneous rate [beta0 * (1 + beta1 * cos (2*pi*t/365))]. *)
Theorem seasonal_is_base_with_instantaneous_rate
    (beta0 beta1 gamma sigma : R) (ic ic' : list R) (y : list R) (t : R) :
  SEIRModelWithSeasonality.seir_seasonal_equations
    (SEIRModelWithSeasonality.__init__ ∅ beta0 beta1 gamma sigma ic) y t
  = SEIRModel.seir_equations
      (SEIRModel.__init__ ∅ (beta0 * (1 + beta1 * cos (2 * PI * t / 365)))
         gamma sigma ic') y t.
Proof.
  unfold_classes.
  destruct y as [|S [|E [|I [|R_ [|? ?]]]]]; cbn; attrs; reflexivity.
Qed.

(** With a non-negative baseline rate and an amplitude between -1 and 1
    the susceptible compartment never grows at a non-negative state; with
    an amplitude above 1, which the constructor accepts, it does grow half
    a period after the peak, at every state with susceptible and infected
    individuals. *)
Theorem seasonal_transmission_sign
    (beta0 beta1 gamma sigma : R) (ic : list R) (S E I R_ : R) :
  (forall t,
      exists dS dE dI dR,
        SEIRModelWithSeasonality.seir_seasonal_equations
          (SEIRModelWithSeasonality.__init__ ∅ beta0 beta1 gamma sigma ic)
          [S; E; I; R_] t = Ok [dS; dE; dI; dR]
        /\ (0 <= beta0 -> -1 <= beta1 <= 1 -> 0 <= S -> 0 <= I -> dS <= 0))
  /\ (exists dS dE dI dR,
         SEIRModelWithSeasonality.seir_seasonal_equations
           (SEIRModelWithSeasonality.__init__ ∅ beta0 beta1 gamma sigma ic)
           [S; E; I; R_] (365 / 2) = Ok [dS; dE; dI; dR]
         /\ (0 < beta0 -> 1 < beta1 -> 0 < S -> 0 < I -> 0 < dS)).
Proof.
  split.
  - intros t. do 4 eexists.
    split; [unfold_classes; cbn; attrs; reflexivity|].
    intros Hb0 Hb1 HS HI.
    pose proof (COS_bound (2 * PI * t / 365)) as Hcos.
    assert (0 <= 1 + beta1 * cos (2 * PI * t / 365)) by nra.
    assert (0 <= beta0 * (1 + beta1 * cos (2 * PI * t / 365)))
      by (by apply Rmult_le_pos).
    assert (0 <= S * I) by (by apply Rmult_le_pos).
    nra.
  - do 4 eexists.
    split; [unfold_classes; cbn; attrs; reflexivity|].
    intros Hb0 Hb1 HS HI.
    replace (2 * PI * (365 / 2) / 365) with PI by field.
    rewrite cos_PI.
    assert (0 < S * I) by (by apply Rmult_lt_0_compat).
    assert (0 < beta0 * (beta1 - 1)) by (apply Rmult_lt_0_compat; lra).
    nra.
Qed.

Lemma seasonal_transmission_sign_witness :
  exists dS dE dI dR,
    SEIRModelWithSeasonality.seir_seasonal_equations
      (SEIRModelWithSeasonality.__init__ ∅ 0.3 1.5 0.1 0.2
         [0.99; 0.0; 0.01; 0])
      [0.99; 0.0; 0.01; 0] (365 / 2) = Ok [dS; dE; dI; dR]
    /\ 0 < dS.
Proof.
  destruct (seasonal_transmission_sign 0.3 1.5 0.1 0.2 [0.99; 0.0; 0.01; 0]
              0.99 0.0 0.01 0)
    as (_ & dS & dE & dI & dR & H0 & Hpos).
  exists dS, dE, dI, dR. split; [exact H0|].
  apply Hpos; lra.
Defined.

(** ** Equilibria *)

Lemma sir_constructed_eval beta gamma mu ic S I R_ t :
  SIRWithDemography.sir_demography_equations
    (SIRWithDemography.__init__ ∅ beta gamma mu ic) [S; I; R_] t
  = Ok [mu - beta * S * I - mu * S;
        beta * S * I - gamma * I - mu * I;
        gamma * I - mu * R_].
Proof. unfold_classes. cbn. attrs. reflexivity. Qed.

Lemma seir_constructed_eval beta gamma sigma ic S E I R_ t :
  SEIRModel.seir_equations
    (SEIRModel.__init__ ∅ beta gamma sigma ic) [S; E; I; R_] t
  = Ok [- beta * S * I;
        beta * S * I - sigma * E;
        sigma * E - gamma * I;
        gamma * I].
Proof. unfold_classes. cbn. attrs. reflexivity. Qed.

Lemma seasonal_constructed_eval beta0 beta1 gamma sigma ic S E I R_ t :
  SEIRModelWithSeasonality.seir_seasonal_equations
    (SEIRModelWithSeasonality.__init__ ∅ beta0 beta1 gamma sigma ic)
    [S; E; I; R_] t
  = Ok [- (beta0 * (1 + beta1 * cos (2 * PI * t / 365))) * S * I;
        beta0 * (1 + beta1 * cos (2 * PI * t / 365)) * S * I - sigma * E;
        sigma * E - gamma * I;
        gamma * I].
Proof. unfold_classes. cbn. attrs. reflexivity. Qed.

Lemma vector3_eq (a b c a' b' c' : R) :
  a = a' -> b = b' -> c = c' ->
  @Ok (list R) [a; b; c] = Ok [a'; b'; c'].
Proof. by intros -> -> ->. Qed.

Lemma vector4_eq (a b c d a' b' c' d' : R) :
  a = a' -> b = b' -> c = c' -> d = d' ->
  @Ok (list R) [a; b; c; d] = Ok [a'; b'; c'; d'].
Proof. by intros -> -> -> ->. Qed.

(** For non-zero [gamma] and [sigma] the base and the seasonal SEIR
    derivative vanish exactly at the states without exposed and infected
    individuals, whatever the susceptible and recovered fractions and, for
    the seasonal function, whatever the time. *)
Theorem seir_equilibria
    (beta beta1 gamma sigma : R) (ic : list R) (S E I R_ t : R) :
  gamma ≠ 0 -> sigma ≠ 0 ->
  (SEIRModel.seir_equations
     (SEIRModel.__init__ ∅ beta gamma sigma ic) [S; E; I; R_] t
   = Ok [0; 0; 0; 0]
   <-> E = 0 /\ I = 0)
  /\ (SEIRModelWithSeasonality.seir_seasonal_equations
        (SEIRModelWithSeasonality.__init__ ∅ beta beta1 gamma sigma ic)
        [S; E; I; R_] t
      = Ok [0; 0; 0; 0]
      <-> E = 0 /\ I = 0).
Proof.
  intros Hg Hs. rewrite seir_constructed_eval, seasonal_constructed_eval.
  assert (Hzero : sigma * E - gamma * I = 0 -> gamma * I = 0 ->
                  E = 0 /\ I = 0).
  { intros HI HR.
    assert (I = 0) as -> by (apply Rmult_integral in HR; tauto).
    assert (HE : sigma * E = 0) by lra.
    apply Rmult_integral in HE. tauto. }
  split; split.
  - intros [= _ _ HI HR]. by apply Hzero.
  - intros [-> ->]. apply vector4_eq; ring.
  - intros [= _ _ HI HR]. by apply Hzero.
  - intros [-> ->]. apply vector4_eq; ring.
Qed.

Lemma seir_equilibria_witness :
  SEIRModel.seir_equations seir_model [0.2; 0; 0; 0.8] 0 = Ok [0; 0; 0; 0]
  /\ SEIRModelWithSeasonality.seir_seasonal_equations seir_seasonal_model
       [0.2; 0; 0; 0.8] 100 = Ok [0; 0; 0; 0].
Proof.
  destruct (seir_equilibria 0.3 0.2 0.1 0.2 [0.99; 0.0; 0.01; 0]
              0.2 0 0 0.8 0) as (Hbase & _); [lra|lra|].
  destruct (seir_equilibria 0.3 0.2 0.1 0.2 [0.99; 0.0; 0.01; 0]
              0.2 0 0 0.8 100) as (_ & Hseasonal); [lra|lra|].
  split; [by apply Hbase|by apply Hseasonal].
Defined.

(** ** Plotting the stored result *)

Lemma every_from_length {A : Type} (step skip : nat) (l : list A) :
  (0 < step)%nat ->
  length (every_from step skip l)
  = ((length l + step - 1 - skip) / step)%nat.
Proof.
  intros Hstep. revert skip.
  induction l as [|a l IH]; intros skip; cbn [every_from length].
  - symmetry. apply Nat.div_small. lia.
  - destruct skip as [|skip]; cbn [length].
    + rewrite IH.
      replace (length l + step - 1 - (step - 1))%nat with (length l) by lia.
      replace (S (length l) + step - 1 - 0)%nat
        with (length l + 1 * step)%nat by lia.
      rewrite Nat.div_add by lia. lia.
    + rewrite IH. f_equal. lia.
Qed.

Lemma T_columns (ncols : nat) (trajectory : list (list R)) :
  exists cols,
    T (VArray ncols trajectory) = Ok cols
    /\ length cols = ncols
    /\ forall j, (j < ncols)%nat ->
         cols !! j = Some (map (fun row => nth j row 0) trajectory).
Proof.
  eexists. split; [reflexivity|]. split.
  - by rewrite length_map, length_seq.
  - intros j Hj. rewrite list_lookup_fmap, lookup_seq_lt by exact Hj.
    reflexivity.
Qed.

Lemma T_columns_length (ncols : nat) (trajectory : list (list R)) cols :
  T (VArray ncols trajectory) = Ok cols ->
  Forall (fun c => length c = length trajectory) cols.
Proof.
  intros [= <-]. apply Forall_forall. intros c Hc.
  apply list_elem_of_fmap in Hc as (j & -> & _). apply length_map.
Qed.

Lemma every_from_Forall {A : Type} (P : A -> Prop) (step skip : nat)
    (l : list A) :
  Forall P l -> Forall P (every_from step skip l).
Proof.
  intros H. revert skip. induction H as [|a l Ha Hl IH]; intros skip.
  - constructor.
  - destruct skip; cbn [every_from]; [constructor|]; auto.
Qed.

Lemma plot_same_length (x y : list R) label :
  length x = length y -> plot x y label = Ok (plt_plot x y label).
Proof. intros H. unfold plot. by rewrite H, Nat.eqb_refl. Qed.

Lemma plot_other_length (x y : list R) label :
  length x ≠ length y -> plot x y label = Err ValueError.
Proof.
  intros H. unfold plot. by apply Nat.eqb_neq in H as ->.
Qed.

(** The phase portrait of [SEIRModel] unpacks every tenth column of the
    stored result into three names.  It therefore returns only for a
    result of 21 to 30 columns and raises [ValueError] for every other
    width; in particular it raises [ValueError] after every [simulate] of
    a four-compartment model, of the base class and of the seasonal class
    alike. *)
Theorem seir_phase_portrait_needs_21_to_30_columns
    (odeint : odeint_t) (self self' : gmap string value)
    (ncols : nat) (trajectory : list (list R)) (y0 grid : list R) :
  (getattr self "results" = Ok (VArray ncols trajectory) ->
   ((exists calls, SEIRModel.plot_phase_portrait self = Ok calls)
    <-> (21 <= ncols <= 30)%nat)
   /\ (~ (21 <= ncols <= 30)%nat ->
       SEIRModel.plot_phase_portrait self = Err ValueError))
  /\ (getattr self "initial_conditions" = Ok (VList y0) ->
      length y0 = 4%nat ->
      (SEIRModel.simulate odeint self grid = Ok self' ->
       SEIRModel.plot_phase_portrait self' = Err ValueError)
      /\ (SEIRModelWithSeasonality.simulate odeint self grid = Ok self' ->
          SEIRModelWithSeasonality.plot_phase_portrait self'
          = Err ValueError)).
Proof.
  assert (Hwidth : forall (self : gmap string value) ncols trajectory,
             getattr self "results" = Ok (VArray ncols trajectory) ->
             ((exists calls, SEIRModel.plot_phase_portrait self = Ok calls)
              <-> (21 <= ncols <= 30)%nat)
             /\ (~ (21 <= ncols <= 30)%nat ->
                 SEIRModel.plot_phase_portrait self = Err ValueError)).
  { clear. intros self ncols trajectory Hres.
    unfold SEIRModel.plot_phase_portrait. rewrite Hres. cbn [mbind result_bind].
    destruct (T_columns ncols trajectory) as (cols & HT & Hlen & _).
    pose proof (T_columns_length ncols trajectory cols HT) as Hrows.
    rewrite HT. cbn [mbind result_bind].
    apply (every_from_Forall _ 10 0) in Hrows. fold (every 10 cols) in Hrows.
    assert (Hevery : length (every 10 cols)
                     = ((ncols + 9) / 10)%nat).
    { unfold every. rewrite every_from_length by lia. rewrite Hlen.
      f_equal. lia. }
    assert (Hthree : ((ncols + 9) / 10)%nat = 3%nat
                     <-> (21 <= ncols <= 30)%nat).
    { pose proof (Nat.div_mod_eq (ncols + 9) 10) as Hdiv.
      pose proof (Nat.mod_upper_bound (ncols + 9) 10 ltac:(lia)).
      lia. }
    destruct (every 10 cols) as [|c0 [|c1 [|c2 [|c3 rest]]]] eqn:Hcols;
      cbn [length] in Hevery; cbn [unpack3].
    - split; [split; [intros (? & ?); discriminate|lia]|done].
    - split; [split; [intros (? & ?); discriminate|lia]|done].
    - split; [split; [intros (? & ?); discriminate|lia]|done].
    - inversion Hrows as [|? ? Hc0 Hrows']. inversion Hrows' as [|? ? Hc1 _].
      rewrite plot_same_length by congruence. cbn [mbind result_bind].
      split; [split; [lia|by eexists]|lia].
    - split; [split; [intros (? & ?); discriminate|lia]|done]. }
  split; [apply Hwidth|].
  intros Hic Hlen.
  assert (Hsim : forall f, simulate_with odeint f self grid = Ok self' ->
                           SEIRModel.plot_phase_portrait self'
                           = Err ValueError).
  { intros f H.
    apply simulate_with_inv in H as (v & y0' & out & Hv & Hy0 & _ & ->).
    rewrite Hic in Hv. injection Hv as <-. cbn in Hy0. injection Hy0 as <-.
    apply (Hwidth _ (length y0) (rows out));
      [apply getattr_setattr_eq|lia]. }
  split; intros H; by apply (Hsim _ H).
Qed.

Lemma seir_phase_portrait_needs_21_to_30_columns_witness :
  exists self',
    SEIRModel.simulate constant_odeint seir_model [0; 1; 2] = Ok self'
    /\ SEIRModel.plot_phase_portrait self' = Err ValueError.
Proof.
  eexists. split.
  { unfold SEIRModel.simulate, seir_model. unfold_classes. attrs.
    reflexivity. }
  apply (seir_phase_portrait_needs_21_to_30_columns constant_odeint
           seir_model _ 0%nat [] [0.99; 0.0; 0.01; 0] [0; 1; 2]).
  - unfold seir_model. unfold_classes. attrs. reflexivity.
  - reflexivity.
  - unfold SEIRModel.simulate, seir_model. unfold_classes. attrs.
    reflexivity.
Defined.

Lemma column_length (j : nat) (trajectory : list (list R)) :
  length (column j trajectory) = length trajectory.
Proof. apply length_map. Qed.

(** After a [simulate] that returns, the stored result is the array the
    solver returned, and [plot_results] of the same class, given time
    points [t], behaves as follows.  When [t] has as many entries as the
    result has rows it issues figure, one plot call per compartment, axis
    labels, title, legend and show, the curve with the label of a
    compartment being the column of the result at that compartment's
    position; when [t] has another length the first plot call raises
    [ValueError].  The phase portrait of the SIR model draws the infected
    column against the susceptible column and needs no time points. *)
Theorem plot_results_after_simulate
    (odeint : odeint_t) (self self' : gmap string value)
    (y0 grid t : list R) :
  getattr self "initial_conditions" = Ok (VList y0) ->
  (length y0 = 3%nat ->
   SIRWithDemography.simulate odeint self grid = Ok self' ->
   exists out,
     odeint (SIRWithDemography.sir_demography_equations self) y0 grid = Ok out
     /\ getattr self' "results" = Ok (VArray 3 (rows out))
     /\ (length t = length (rows out) ->
         SIRWithDemography.plot_results self' t
         = Ok [plt_figure 10 6;
               plt_plot t (column 0 (rows out)) (Some "Susceptible");
               plt_plot t (column 1 (rows out)) (Some "Infected");
               plt_plot t (column 2 (rows out)) (Some "Recovered");
               plt_xlabel "Time";
               plt_ylabel "Proportion of Population";
               plt_title "SIR Model with Demography";
               plt_legend;
               plt_show])
     /\ (length t ≠ length (rows out) ->
         SIRWithDemography.plot_results self' t = Err ValueError)
     /\ SIRWithDemography.plot_phase_portrait self'
        = Ok [plt_figure 10 6;
              plt_plot (column 0 (rows out)) (column 1 (rows out))
                (Some "Phase Portrait");
              plt_xlabel "Susceptible";
              plt_ylabel "Infected";
              plt_title "Phase Portrait of SIR Model with Demography";
              plt_legend;
              plt_show])
  /\ (length y0 = 4%nat ->
      SEIRModel.simulate odeint self grid = Ok self' ->
      exists out,
        odeint (SEIRModel.seir_equations self) y0 grid = Ok out
        /\ getattr self' "results" = Ok (VArray 4 (rows out))
        /\ (length t = length (rows out) ->
            SEIRModel.plot_results self' t
            = Ok [plt_figure 10 6;
                  plt_plot t (column 0 (rows out)) (Some "Susceptible");
                  plt_plot t (column 1 (rows out)) (Some "Exposed");
                  plt_plot t (column 2 (rows out)) (Some "Infected");
                  plt_plot t (column 3 (rows out)) (Some "Recovered");
                  plt_xlabel "Time";
                  plt_ylabel "Proportion of Population";
                  plt_title "SEIR Model";
                  plt_legend;
                  plt_show])
        /\ (length t ≠ length (rows out) ->
            SEIRModel.plot_results self' t = Err ValueError))
  /\ (length y0 = 4%nat ->
      SEIRModelWithSeasonality.simulate odeint self grid = Ok self' ->
      exists out,
        odeint (SEIRModelWithSeasonality.seir_seasonal_equations self)
          y0 grid = Ok out
        /\ getattr self' "results" = Ok (VArray 4 (rows out))
        /\ (length t = length (rows out) ->
            SEIRModelWithSeasonality.plot_results self' t
            = Ok [plt_figure 10 6;
                  plt_plot t (column 0 (rows out)) (Some "Susceptible");
                  plt_plot t (column 1 (rows out)) (Some "Exposed");
                  plt_plot t (column 2 (rows out)) (Some "Infected");
                  plt_plot t (column 3 (rows out)) (Some "Recovered");
                  plt_xlabel "Time";
                  plt_ylabel "Proportion of Population";
                  plt_title "SEIR Model with Seasonality";
                  plt_legend;
                  plt_show])
        /\ (length t ≠ length (rows out) ->
            SEIRModelWithSeasonality.plot_results self' t = Err ValueError)).
Proof.
  intros Hic.
  assert (Hsim : forall f, simulate_with odeint f self grid = Ok self' ->
                           exists out,
                             odeint (f self) y0 grid = Ok out
                             /\ self' = setattr self "results"
                                          (VArray (length y0) (rows out))).
  { intros f H.
    apply simulate_with_inv in H as (v & y0' & out & Hv & Hy0 & Hout & ->).
    rewrite Hic in Hv. injection Hv as <-. cbn in Hy0. injection Hy0 as <-.
    by exists out. }
  split; [|split]; intros Hlen H;
    apply Hsim in H as (out & Hout & ->);
    rewrite Hlen; exists out; (split; [exact Hout|]);
    (split; [apply getattr_setattr_eq|]).
  - unfold SIRWithDemography.plot_results,
      SIRWithDemography.plot_phase_portrait.
    rewrite getattr_setattr_eq. cbn [mbind result_bind T unpack3 map seq].
    fold (column 0 (rows out)) (column 1 (rows out)) (column 2 (rows out)).
    split; [|split].
    + intros Ht. rewrite !plot_same_length by (by rewrite column_length).
      reflexivity.
    + intros Ht.
      rewrite (plot_other_length t (column 0 (rows out)))
        by (by rewrite column_length).
      reflexivity.
    + rewrite plot_same_length by (by rewrite !column_length). reflexivity.
  - unfold SEIRModel.plot_results.
    rewrite getattr_setattr_eq. cbn [mbind result_bind T unpack4 map seq].
    fold (column 0 (rows out)) (column 1 (rows out)) (column 2 (rows out))
      (column 3 (rows out)).
    split.
    + intros Ht. rewrite !plot_same_length by (by rewrite column_length).
      reflexivity.
    + intros Ht.
      rewrite (plot_other_length t (column 0 (rows out)))
        by (by rewrite column_length).
      reflexivity.
  - unfold SEIRModelWithSeasonality.plot_results.
    rewrite getattr_setattr_eq. cbn [mbind result_bind T unpack4 map seq].
    fold (column 0 (rows out)) (column 1 (rows out)) (column 2 (rows out))
      (column 3 (rows out)).
    split.
    + intros Ht. rewrite !plot_same_length by (by rewrite column_length).
      reflexivity.
    + intros Ht.
      rewrite (plot_other_length t (column 0 (rows out)))
        by (by rewrite column_length).
      reflexivity.
Qed.

Lemma plot_results_after_simulate_witness :
  exists self',
    SIRWithDemography.simulate constant_odeint sir_demo_model [0; 1; 2]
    = Ok self'
    /\ (exists calls,
           SIRWithDemography.plot_results self' [0; 1; 2] = Ok calls)
    /\ SIRWithDemography.plot_results self' [0; 1] = Err ValueError.
Proof.
  assert (Hsim : SIRWithDemography.simulate constant_odeint sir_demo_model
                   [0; 1; 2]
                 = Ok (setattr sir_demo_model "results"
                         (VArray 3 (map (fun _ => [0.99; 0.01; 0])
                                      [0; 1; 2])))).
  { unfold SIRWithDemography.simulate, sir_demo_model. unfold_classes.
    attrs. reflexivity. }
  assert (Hic : getattr sir_demo_model "initial_conditions"
                = Ok (VList [0.99; 0.01; 0])).
  { unfold sir_demo_model. unfold_classes. attrs. reflexivity. }
  eexists. split; [exact Hsim|]. split.
  - destruct (plot_results_after_simulate constant_odeint sir_demo_model
                (setattr sir_demo_model "results"
                   (VArray 3 (map (fun _ => [0.99; 0.01; 0]) [0; 1; 2])))
                [0.99; 0.01; 0] [0; 1; 2] [0; 1; 2] Hic) as (H & _).
    destruct (H eq_refl Hsim) as (out & [= <-] & _ & Hplot & _).
    eexists. apply Hplot. reflexivity.
  - destruct (plot_results_after_simulate constant_odeint sir_demo_model
                (setattr sir_demo_model "results"
                   (VArray 3 (map (fun _ => [0.99; 0.01; 0]) [0; 1; 2])))
                [0.99; 0.01; 0] [0; 1; 2] [0; 1] Hic) as (H & _).
    destruct (H eq_refl Hsim) as (out & [= <-] & _ & _ & Hplot & _).
    apply Hplot. cbn. lia.
Defined.

(** [plot_fourier_transform] on an instance with a stored result.  A
    result of fewer than three columns raises [IndexError].  Otherwise
    [fft] is called on the third column, the infected compartment, and
    what it raises reaches the caller before the time points are looked
    at.  When [fft] returns, fewer than two time points raise
    [IndexError]; otherwise [fftfreq] is called with the number [N] of
    time points and the difference of the first two, and what it raises
    reaches the caller.  When both return, the method plots the first
    [N / 2] frequencies against [2.0 / N] times the modulus of the first
    [N / 2] transform values if the two sequences have the same length,
    and raises [ValueError] if they do not; they have the same length when
    [fft] and [fftfreq] return as many values as they are asked for and
    the result has one row per time point. *)
Theorem plot_fourier_transform_behaviour
    (fft : fft_t) (fftfreq : fftfreq_t)
    (self : gmap string value) (ncols : nat) (trajectory : list (list R))
    (t : list R) :
  getattr self "results" = Ok (VArray ncols trajectory) ->
  ((ncols <= 2)%nat ->
   SEIRModel.plot_fourier_transform fft fftfreq self t = Err IndexError)
  /\ ((3 <= ncols)%nat ->
      (forall e, fft (column 2 trajectory) = Err e ->
                 SEIRModel.plot_fourier_transform fft fftfreq self t = Err e)
      /\ forall yf, fft (column 2 trajectory) = Ok yf ->
           ((length t < 2)%nat ->
            SEIRModel.plot_fourier_transform fft fftfreq self t
            = Err IndexError)
           /\ forall t0 t1 rest, t = t0 :: t1 :: rest ->
                (forall e, fftfreq (length t) (t1 - t0) = Err e ->
                           SEIRModel.plot_fourier_transform fft fftfreq self t
                           = Err e)
                /\ forall freq, fftfreq (length t) (t1 - t0) = Ok freq ->
                     let N := length t in
                     let xf := take (N / 2) freq in
                     let amplitudes :=
                       map (fun z => 2.0 / INR N * np_abs z)
                         (take (N / 2) yf) in
                     (length xf = length amplitudes ->
                      SEIRModel.plot_fourier_transform fft fftfreq self t
                      = Ok [plt_figure 10 6;
                            plt_plot xf amplitudes None;
                            plt_xlabel "Frequency";
                            plt_ylabel "Amplitude";
                            plt_title
                              "Fourier Transform of Infected Population in SEIR Model";
                            plt_show])
                     /\ (length xf ≠ length amplitudes ->
                         SEIRModel.plot_fourier_transform fft fftfreq self t
                         = Err ValueError)
                     /\ (length freq = N ->
                         length yf = length trajectory ->
                         length trajectory = N ->
                         length xf = length amplitudes)).
Proof.
  intros Hres. unfold SEIRModel.plot_fourier_transform. rewrite Hres.
  cbn [mbind result_bind].
  destruct (T_columns ncols trajectory) as (cols & -> & Hlen & Hcols).
  cbn [mbind result_bind].
  split.
  - intros Hn. unfold index.
    rewrite (lookup_ge_None_2 cols 2) by lia. reflexivity.
  - intros Hn. unfold index. rewrite (Hcols 2%nat) by lia.
    fold (column 2 trajectory). cbn [mbind result_bind].
    split.
    + intros e ->. reflexivity.
    + intros yf ->. cbn [mbind result_bind]. split.
      * intros Ht.
        rewrite (lookup_ge_None_2 t 1) by lia. reflexivity.
      * intros t0 t1 rest ->.
        cbn [lookup list_lookup mbind result_bind]. split.
        -- intros e ->. reflexivity.
        -- intros freq ->. cbn [mbind result_bind mret result_ret].
           split; [|split].
           ++ intros Hsame. rewrite plot_same_length by exact Hsame.
              reflexivity.
           ++ intros Hother. rewrite plot_other_length by exact Hother.
              reflexivity.
           ++ intros Hfreq Hyf Hrows.
              rewrite length_map, !length_take. lia.
Qed.

Lemma plot_fourier_transform_behaviour_witness :
  exists calls,
    SEIRModel.plot_fourier_transform
      (fun l => Ok (map (fun x => (x, 0)) l))
      (fun n d => Ok (map (fun k => INR k / (INR n * d)) (seq 0 n)))
      (setattr seir_model "results"
         (VArray 4 (map (fun _ => [0.99; 0.0; 0.01; 0]) [0; 1; 2; 3])))
      [0; 1; 2; 3]
    = Ok calls
    /\ length calls = 6%nat.
Proof.
  destruct (plot_fourier_transform_behaviour
              (fun l => Ok (map (fun x => (x, 0)) l))
              (fun n d => Ok (map (fun k => INR k / (INR n * d)) (seq 0 n)))
              (setattr seir_model "results"
                 (VArray 4 (map (fun _ => [0.99; 0.0; 0.01; 0])
                              [0; 1; 2; 3])))
              4%nat (map (fun _ => [0.99; 0.0; 0.01; 0]) [0; 1; 2; 3])
              [0; 1; 2; 3]) as (_ & H).
  { apply getattr_setattr_eq. }
  assert (Hcols : (3 <= 4)%nat) by lia.
  destruct (H Hcols) as (_ & Hfft).
  destruct (Hfft _ eq_refl) as (_ & Ht).
  destruct (Ht 0 1 [2; 3] eq_refl) as (_ & Hfreq).
  destruct (Hfreq _ eq_refl) as (Hplot & _ & Hlengths).
  eexists. split.
  - apply Hplot. apply Hlengths.
    + by rewrite length_map, length_seq.
    + by rewrite !length_map.
    + reflexivity.
  - reflexivity.
Defined.

(** ** Trajectories: signs, relaxation and a conserved quantity *)

(** A solution of [u' = c u] with continuous [c] that is positive at one
    time of the interval is positive on the whole interval. *)
Lemma linear_ode_positive (u c : R -> R) (a b t0 : R) :
  a <= t0 <= b ->
  (forall t, a <= t <= b -> derivable_pt_lim u t (c t * u t)) ->
  (forall t, a <= t <= b -> continuity_pt c t) ->
  0 < u t0 ->
  forall t, a <= t <= b -> 0 < u t.
Proof.
  intros Ht0 Hu Hc Hpos t Ht.
  destruct (Rlt_le_dec 0 (u t)) as [|Hle]; [assumption|exfalso].
  assert (Hcont : forall s, a <= s <= b -> continuity_pt u s).
  { intros s Hs. apply derivable_continuous_pt.
    exists (c s * u s). by apply Hu. }
  assert (Hzero : exists s, a <= s <= b /\ u s = 0).
  { destruct (Req_dec (u t) 0) as [Heq|Hne]; [by exists t|].
    assert (Hneg : u t < 0) by lra.
    destruct (Rtotal_order t0 t) as [Hlt | [Heq | Hgt]].
    - destruct (IVT_interv (- u)%F t0 t) as (s & Hs & Hus).
      + intros s Hs. apply continuity_pt_opp, Hcont. lra.
      + exact Hlt.
      + unfold opp_fct. lra.
      + unfold opp_fct. lra.
      + exists s. split; [lra|]. unfold opp_fct in Hus. lra.
    - subst. lra.
    - destruct (IVT_interv u t t0) as (s & Hs & Hus).
      + intros s Hs. apply Hcont. lra.
      + exact Hgt.
      + exact Hneg.
      + exact Hpos.
      + exists s. split; [lra|exact Hus]. }
  destruct Hzero as (s & Hs & Hus).
  pose proof (linear_ode_zero u c a b s Hs Hu Hc Hus t0 Ht0). lra.
Qed.

(** The parameters and the component equations of a trajectory of the
    SIR-with-demography system. *)
Lemma sir_solution_parameters (self : gmap string value) n y a b t0 :
  a <= t0 <= b ->
  solves (SIRWithDemography.sir_demography_equations self) n y a b ->
  exists beta gamma mu,
    attr self "beta" = Ok beta
    /\ attr self "gamma" = Ok gamma
    /\ attr self "mu" = Ok mu
    /\ forall t, a <= t <= b ->
         y t = [nth 0 (y t) 0; nth 1 (y t) 0; nth 2 (y t) 0]
         /\ derivable_pt_lim (fun s => nth 0 (y s) 0) t
              (mu - beta * nth 0 (y t) 0 * nth 1 (y t) 0
               - mu * nth 0 (y t) 0)
         /\ derivable_pt_lim (fun s => nth 1 (y s) 0) t
              (beta * nth 0 (y t) 0 * nth 1 (y t) 0
               - gamma * nth 1 (y t) 0 - mu * nth 1 (y t) 0)
         /\ derivable_pt_lim (fun s => nth 2 (y s) 0) t
              (gamma * nth 1 (y t) 0 - mu * nth 2 (y t) 0).
Proof.
  intros Ht0 Hsol.
  destruct (Hsol t0 Ht0) as (Hlen0 & d0 & Hd0 & _ & _).
  apply sir_equations_inv in Hd0
    as (beta & gamma & mu & S0 & I0 & R0 & Hb & Hg & Hm & Hy0 & _).
  assert (Hn : n = 3%nat) by (rewrite <- Hlen0, Hy0; reflexivity).
  subst n. exists beta, gamma, mu. do 3 (split; [assumption|]).
  intros t Ht.
  destruct (Hsol t Ht) as (_ & d & Hd & _ & Hder).
  apply sir_equations_inv in Hd
    as (beta' & gamma' & mu' & S & I & R_ & Hb' & Hg' & Hm' & Hy & ->).
  rewrite Hb in Hb'. rewrite Hg in Hg'. rewrite Hm in Hm'.
  injection Hb' as <-. injection Hg' as <-. injection Hm' as <-.
  rewrite Hy. cbn [nth].
  split; [reflexivity|].
  split; [exact (Hder 0%nat ltac:(lia))|].
  split; [exact (Hder 1%nat ltac:(lia))|exact (Hder 2%nat ltac:(lia))].
Qed.

Lemma seir_solution_parameters (self : gmap string value) n y a b t0 :
  a <= t0 <= b ->
  solves (SEIRModel.seir_equations self) n y a b ->
  exists beta gamma sigma,
    attr self "beta" = Ok beta
    /\ attr self "gamma" = Ok gamma
    /\ attr self "sigma" = Ok sigma
    /\ forall t, a <= t <= b ->
         derivable_pt_lim (fun s => nth 0 (y s) 0) t
           (- beta * nth 0 (y t) 0 * nth 2 (y t) 0)
         /\ derivable_pt_lim (fun s => nth 1 (y s) 0) t
              (beta * nth 0 (y t) 0 * nth 2 (y t) 0
               - sigma * nth 1 (y t) 0)
         /\ derivable_pt_lim (fun s => nth 2 (y s) 0) t
              (sigma * nth 1 (y t) 0 - gamma * nth 2 (y t) 0)
         /\ derivable_pt_lim (fun s => nth 3 (y s) 0) t
              (gamma * nth 2 (y t) 0).
Proof.
  intros Ht0 Hsol.
  destruct (Hsol t0 Ht0) as (Hlen0 & d0 & Hd0 & _ & _).
  apply seir_equations_inv in Hd0
    as (beta & gamma & sigma & S0 & E0 & I0 & R0 & Hb & Hg & Hs & Hy0 & _).
  assert (Hn : n = 4%nat) by (rewrite <- Hlen0, Hy0; reflexivity).
  subst n. exists beta, gamma, sigma. do 3 (split; [assumption|]).
  intros t Ht.
  destruct (Hsol t Ht) as (_ & d & Hd & _ & Hder).
  apply seir_equations_inv in Hd
    as (beta' & gamma' & sigma' & S & E & I & R_
        & Hb' & Hg' & Hs' & Hy & ->).
  rewrite Hb in Hb'. rewrite Hg in Hg'. rewrite Hs in Hs'.
  injection Hb' as <-. injection Hg' as <-. injection Hs' as <-.
  rewrite Hy. cbn [nth].
  split; [exact (Hder 0%nat ltac:(lia))|].
  split; [exact (Hder 1%nat ltac:(lia))|].
  split; [exact (Hder 2%nat ltac:(lia))|exact (Hder 3%nat ltac:(lia))].
Qed.

(** Along a trajectory of the SIR-with-demography system the infected
    compartment satisfies [I' = c I] with a continuous [c]. *)
Lemma sir_infected_equation (self : gmap string value) n y a b t0 :
  a <= t0 <= b ->
  solves (SIRWithDemography.sir_demography_equations self) n y a b ->
  exists c : R -> R,
    (forall t, a <= t <= b ->
       derivable_pt_lim (fun s => nth 1 (y s) 0) t (c t * nth 1 (y t) 0))
    /\ (forall t, a <= t <= b -> continuity_pt c t).
Proof.
  intros Ht0 Hsol.
  destruct (sir_solution_parameters self n y a b t0 Ht0 Hsol)
    as (beta & gamma & mu & _ & _ & _ & Hcomp).
  exists (fun s => beta * nth 0 (y s) 0 - gamma - mu). split.
  - intros t Ht. destruct (Hcomp t Ht) as (_ & _ & HI & _).
    replace ((beta * nth 0 (y t) 0 - gamma - mu) * nth 1 (y t) 0)
      with (beta * nth 0 (y t) 0 * nth 1 (y t) 0 - gamma * nth 1 (y t) 0
            - mu * nth 1 (y t) 0) by ring.
    exact HI.
  - intros t Ht. destruct (Hcomp t Ht) as (_ & HS & _).
    apply derivable_continuous_pt.
    eexists.
    apply (derivable_pt_lim_minus
             (mult_real_fct beta (fun s => nth 0 (y s) 0) - fct_cte gamma)%F
             (fct_cte mu)).
    + apply derivable_pt_lim_minus.
      * apply derivable_pt_lim_scal. exact HS.
      * apply derivable_pt_lim_const.
    + apply derivable_pt_lim_const.
Qed.

(** Derivatives of functions written as expressions in the time. *)
Lemma dlim_value (f : R -> R) (t l l' : R) :
  derivable_pt_lim f t l -> l = l' -> derivable_pt_lim f t l'.
Proof. by intros H <-. Qed.

Lemma dlim_const (c t : R) : derivable_pt_lim (fun _ => c) t 0.
Proof. apply derivable_pt_lim_const. Qed.

Lemma dlim_id (t : R) : derivable_pt_lim (fun s => s) t 1.
Proof. apply derivable_pt_lim_id. Qed.

Lemma dlim_plus (f g : R -> R) (t l1 l2 : R) :
  derivable_pt_lim f t l1 -> derivable_pt_lim g t l2 ->
  derivable_pt_lim (fun s => f s + g s) t (l1 + l2).
Proof. apply derivable_pt_lim_plus. Qed.

Lemma dlim_minus (f g : R -> R) (t l1 l2 : R) :
  derivable_pt_lim f t l1 -> derivable_pt_lim g t l2 ->
  derivable_pt_lim (fun s => f s - g s) t (l1 - l2).
Proof. apply derivable_pt_lim_minus. Qed.

Lemma dlim_scal (c : R) (f : R -> R) (t l : R) :
  derivable_pt_lim f t l ->
  derivable_pt_lim (fun s => c * f s) t (c * l).
Proof. apply derivable_pt_lim_scal. Qed.

Lemma dlim_exp (f : R -> R) (t l : R) :
  derivable_pt_lim f t l ->
  derivable_pt_lim (fun s => exp (f s)) t (exp (f t) * l).
Proof.
  intros H.
  exact (derivable_pt_lim_comp f exp t l (exp (f t)) H
           (derivable_pt_lim_exp (f t))).
Qed.

Ltac dlim :=
  repeat first
    [ eapply dlim_minus | eapply dlim_plus | eapply dlim_exp
    | eapply dlim_id | eapply dlim_scal | eapply dlim_const ].

(** The closed-form trajectories solve the systems they are named after. *)
Lemma sir_linear_trajectory_solves (self : gmap string value)
    (beta gamma mu S0 I0 R0 a b : R) :
  attr self "beta" = Ok beta ->
  attr self "gamma" = Ok gamma ->
  attr self "mu" = Ok mu ->
  beta * I0 = 0 ->
  solves (SIRWithDemography.sir_demography_equations self) 3
    (sir_linear_trajectory gamma mu S0 I0 R0) a b.
Proof.
  intros Hb Hg Hm Hzero t _. split; [reflexivity|].
  eexists. split; [by apply sir_equations_eval|]. split; [reflexivity|].
  assert (Hno : forall X e, beta * X * (I0 * e) = 0).
  { intros X e. replace (beta * X * (I0 * e)) with (beta * I0 * X * e)
      by ring. rewrite Hzero. ring. }
  intros i Hi. destruct i as [|[|[|i]]]; [| | |lia];
    cbn [nth sir_linear_trajectory]; rewrite ?Hno;
    (eapply dlim_value; [dlim|cbv beta; ring]).
Qed.

Lemma seir_removal_trajectory_solves (self : gmap string value)
    (beta gamma S0 E0 I0 R0 a b : R) :
  attr self "beta" = Ok beta ->
  attr self "gamma" = Ok gamma ->
  attr self "sigma" = Ok 0 ->
  gamma ≠ 0 ->
  solves (SEIRModel.seir_equations self) 4
    (seir_removal_trajectory beta gamma S0 E0 I0 R0) a b.
Proof.
  intros Hb Hg Hs Hgamma t _. split; [reflexivity|].
  eexists. split; [by apply seir_equations_eval|]. split; [reflexivity|].
  intros i Hi. destruct i as [|[|[|[|i]]]]; [| | | |lia];
    cbn [nth seir_removal_trajectory];
    (eapply dlim_value; [dlim|cbv beta; field; exact Hgamma]).
Qed.




(** Along every trajectory of the SIR-with-demography system the sign of
    the infected compartment never changes: an infection present at one
    time is present, and positive, at every time of the interval, and a
    negative value stays negative. *)
Theorem sir_infection_keeps_its_sign
    (self : gmap string value) n y a b t0 :
  a <= t0 <= b ->
  solves (SIRWithDemography.sir_demography_equations self) n y a b ->
  (0 < nth 1 (y t0) 0 -> forall t, a <= t <= b -> 0 < nth 1 (y t) 0)
  /\ (nth 1 (y t0) 0 < 0 -> forall t, a <= t <= b -> nth 1 (y t) 0 < 0).
Proof.
  intros Ht0 Hsol.
  destruct (sir_infected_equation self n y a b t0 Ht0 Hsol)
    as (c & HI & Hc).
  split.
  - intros Hpos.
    exact (linear_ode_positive (fun s => nth 1 (y s) 0) c a b t0
             Ht0 HI Hc Hpos).
  - intros Hneg t Ht.
    assert (0 < (- (fun s => nth 1 (y s) 0))%F t); [|unfold opp_fct in *; lra].
    apply (linear_ode_positive (- (fun s => nth 1 (y s) 0))%F c a b t0);
      try assumption.
    + intros s Hs.
      replace (c s * (- (fun s0 => nth 1 (y s0) 0))%F s)
        with (- (c s * nth 1 (y s) 0)) by (unfold opp_fct; ring).
      apply derivable_pt_lim_opp. by apply HI.
    + unfold opp_fct. lra.
Qed.

Lemma sir_infection_keeps_its_sign_witness :
  0 < nth 1 (sir_linear_trajectory 0.1 0.01 0.99 0.01 0 1000) 0.
Proof.
  destruct (sir_infection_keeps_its_sign
              (SIRWithDemography.__init__ ∅ 0 0.1 0.01 [0.99; 0.01; 0]) 3
              (sir_linear_trajectory 0.1 0.01 0.99 0.01 0) 0 1000 0)
    as (H & _).
  - lra.
  - apply (sir_linear_trajectory_solves _ 0);
      [unfold_classes; attrs; reflexivity..|lra].
  - apply H; [|lra]. cbn [nth sir_linear_trajectory].
    apply Rmult_lt_0_compat; [lra|apply exp_pos].
Defined.

(** Along every trajectory of the SIR-with-demography system the
    distance of the total population [N = S + I + R] from 1 decays, or for
    negative [mu] grows, exponentially at rate [mu]:
    [N(t) - 1 = (N(t0) - 1) * exp (- mu * (t - t0))]. *)
Theorem sir_total_relaxes_to_one
    (self : gmap string value) (mu : R) n y a b t0 :
  attr self "mu" = Ok mu ->
  a <= t0 <= b ->
  solves (SIRWithDemography.sir_demography_equations self) n y a b ->
  forall t, a <= t <= b ->
    total (y t) - 1 = (total (y t0) - 1) * exp (- mu * (t - t0)).
Proof.
  intros Hmu Ht0 Hsol.
  destruct (sir_solution_parameters self n y a b t0 Ht0 Hsol)
    as (beta & gamma & mu' & _ & _ & Hm & Hcomp).
  rewrite Hmu in Hm. injection Hm as <-.
  set (N := ((fun s => nth 0 (y s) 0) + ((fun s => nth 1 (y s) 0)
             + ((fun s => nth 2 (y s) 0) + fct_cte 0)) - fct_cte 1)%F).
  set (e := comp exp (mult_real_fct mu (id - fct_cte t0)%F)).
  assert (HN : forall t, a <= t <= b -> N t = total (y t) - 1).
  { intros t Ht. destruct (Hcomp t Ht) as (Hy & _).
    rewrite Hy. reflexivity. }
  assert (Hconst : forall s t, a <= s <= b -> a <= t <= b ->
                               (N * e)%F s = (N * e)%F t).
  { apply constant_of_zero_derivative. intros t Ht.
    destruct (Hcomp t Ht) as (_ & HS & HI & HR).
    replace 0 with
      ((mu - beta * nth 0 (y t) 0 * nth 1 (y t) 0 - mu * nth 0 (y t) 0
        + (beta * nth 0 (y t) 0 * nth 1 (y t) 0
           - gamma * nth 1 (y t) 0 - mu * nth 1 (y t) 0
           + (gamma * nth 1 (y t) 0 - mu * nth 2 (y t) 0 + 0)) - 0)
       * e t
       + N t * (exp (mult_real_fct mu (id - fct_cte t0)%F t)
                * (mu * (1 - 0)))).
    2:{ unfold N, e, comp, mult_real_fct, plus_fct, minus_fct, id,
          fct_cte. ring. }
    apply derivable_pt_lim_mult.
    - unfold N.
      repeat first [ apply derivable_pt_lim_minus
                   | apply derivable_pt_lim_plus
                   | apply derivable_pt_lim_const
                   | assumption ].
    - unfold e. apply derivable_pt_lim_comp; [|apply derivable_pt_lim_exp].
      apply derivable_pt_lim_scal, derivable_pt_lim_minus.
      + apply derivable_pt_lim_id.
      + apply derivable_pt_lim_const. }
  intros t Ht. specialize (Hconst t t0 Ht Ht0).
  unfold mult_fct in Hconst. rewrite !HN in Hconst by assumption.
  unfold e, comp, mult_real_fct, minus_fct, id, fct_cte in Hconst.
  replace (mu * (t0 - t0)) with 0 in Hconst by ring.
  rewrite exp_0 in Hconst.
  replace (- mu * (t - t0)) with (- (mu * (t - t0))) by ring.
  rewrite exp_Ropp.
  pose proof (exp_pos (mu * (t - t0))) as Hexp.
  apply (Rmult_eq_reg_r (exp (mu * (t - t0)))); [|lra].
  rewrite Hconst. field. lra.
Qed.

Lemma sir_total_relaxes_to_one_witness :
  total (sir_linear_trajectory 0.1 0.01 0.5 0 0.2 100) - 1
  = (total (sir_linear_trajectory 0.1 0.01 0.5 0 0.2 0) - 1)
    * exp (- (0.01) * (100 - 0)).
Proof.
  apply (sir_total_relaxes_to_one
           (SIRWithDemography.__init__ ∅ 0.3 0.1 0.01 [0.5; 0; 0.2])
           0.01 3 (sir_linear_trajectory 0.1 0.01 0.5 0 0.2) 0 1000 0).
  - unfold_classes. attrs. reflexivity.
  - lra.
  - apply (sir_linear_trajectory_solves _ 0.3);
      [unfold_classes; attrs; reflexivity..|lra].
  - lra.
Defined.

(** Along every trajectory of the base SEIR system with a non-zero
    recovery rate the quantity [S * exp (beta / gamma * R)] is conserved.
    Hence the susceptible compartment keeps its sign: susceptibles present
    at one time are never used up. *)
Theorem seir_susceptibles_first_integral
    (self : gmap string value) (beta gamma : R) n y a b t0 :
  attr self "beta" = Ok beta ->
  attr self "gamma" = Ok gamma ->
  gamma ≠ 0 ->
  a <= t0 <= b ->
  solves (SEIRModel.seir_equations self) n y a b ->
  forall t, a <= t <= b ->
    nth 0 (y t) 0 * exp (beta / gamma * nth 3 (y t) 0)
    = nth 0 (y t0) 0 * exp (beta / gamma * nth 3 (y t0) 0)
    /\ (0 < nth 0 (y t0) 0 -> 0 < nth 0 (y t) 0).
Proof.
  intros Hbeta Hgamma Hg Ht0 Hsol.
  destruct (seir_solution_parameters self n y a b t0 Ht0 Hsol)
    as (beta' & gamma' & sigma & Hb' & Hg' & _ & Hcomp).
  rewrite Hbeta in Hb'. rewrite Hgamma in Hg'.
  injection Hb' as <-. injection Hg' as <-.
  set (S := fun s => nth 0 (y s) 0).
  set (e := comp exp (mult_real_fct (beta / gamma)
                        (fun s => nth 3 (y s) 0))).
  assert (Hconst : forall s t, a <= s <= b -> a <= t <= b ->
                               (S * e)%F s = (S * e)%F t).
  { apply constant_of_zero_derivative. intros t Ht.
    destruct (Hcomp t Ht) as (HS & _ & _ & HR).
    replace 0 with
      (- beta * nth 0 (y t) 0 * nth 2 (y t) 0 * e t
       + S t * (exp (mult_real_fct (beta / gamma)
                       (fun s => nth 3 (y s) 0) t)
                * (beta / gamma * (gamma * nth 2 (y t) 0)))).
    2:{ unfold S, e, comp, mult_real_fct. field. exact Hg. }
    apply derivable_pt_lim_mult; [exact HS|].
    unfold e. apply derivable_pt_lim_comp; [|apply derivable_pt_lim_exp].
    apply derivable_pt_lim_scal. exact HR. }
  intros t Ht.
  assert (Heq : nth 0 (y t) 0 * exp (beta / gamma * nth 3 (y t) 0)
                = nth 0 (y t0) 0 * exp (beta / gamma * nth 3 (y t0) 0)).
  { exact (Hconst t t0 Ht Ht0). }
  split; [exact Heq|].
  intros Hpos.
  pose proof (exp_pos (beta / gamma * nth 3 (y t) 0)) as He.
  pose proof (exp_pos (beta / gamma * nth 3 (y t0) 0)) as He0.
  assert (0 < nth 0 (y t) 0 * exp (beta / gamma * nth 3 (y t) 0)).
  { rewrite Heq. by apply Rmult_lt_0_compat. }
  destruct (Rlt_le_dec 0 (nth 0 (y t) 0)) as [|Hle]; [assumption|].
  exfalso.
  assert (nth 0 (y t) 0 * exp (beta / gamma * nth 3 (y t) 0) <= 0);
    [|lra].
  generalize dependent (exp (beta / gamma * nth 3 (y t) 0)).
  intros x _ Hx _. nra.
Qed.

Lemma seir_susceptibles_first_integral_witness :
  nth 0 (seir_removal_trajectory 0.3 0.1 0.99 0 0.01 0 10) 0
  * exp (0.3 / 0.1 * nth 3 (seir_removal_trajectory 0.3 0.1 0.99 0 0.01 0 10) 0)
  = nth 0 (seir_removal_trajectory 0.3 0.1 0.99 0 0.01 0 0) 0
    * exp (0.3 / 0.1
           * nth 3 (seir_removal_trajectory 0.3 0.1 0.99 0 0.01 0 0) 0)
  /\ 0 < nth 0 (seir_removal_trajectory 0.3 0.1 0.99 0 0.01 0 10) 0.
Proof.
  destruct (seir_susceptibles_first_integral
              (SEIRModel.__init__ ∅ 0.3 0.1 0 [0.99; 0; 0.01; 0]) 0.3 0.1 4
              (seir_removal_trajectory 0.3 0.1 0.99 0 0.01 0) 0 1000 0)
    with (t := 10) as (Heq & Hpos).
  - unfold_classes. attrs. reflexivity.
  - unfold_classes. attrs. reflexivity.
  - lra.
  - lra.
  - apply (seir_removal_trajectory_solves _ 0.3 0.1);
      [unfold_classes; attrs; reflexivity..|lra].
  - lra.
  - split; [exact Heq|]. apply Hpos. cbn [nth seir_removal_trajectory].
    apply Rmult_lt_0_compat; [lra|apply exp_pos].
Defined.

